(** * Home.vue: the user records view

    A shallow embedding of the script of [ui/src/components/Home.vue]: the
    reactive variables of the component become one record [State], every
    handler becomes a function on that record, and the handlers that [await]
    a [fetch] become small resumable programs ([prog]) that suspend on the
    request and are resumed with the reply of the server.

    Conventions.
    - A JavaScript [number] that holds a record identifier is a [Z]; the
      template literal [`${id}`] prints it in decimal, which is what
      JavaScript does for every integer below 1e21 in absolute value.
    - A JavaScript string is a [string] of bytes (UTF-8), so the literals of
      the source, emoji included, are kept byte for byte.
    - [number | null] is [option Z].
    - The background rotation of [onMounted] only touches [index] and the
      style of a DOM node; no other variable reads them and it is left out. *)

From Stdlib Require Import ZArith List String Ascii Bool Lia.
From Stdlib Require Import DecimalString.
From Stdlib Require Decimal DecimalZ.
Import ListNotations.
Local Open Scope string_scope.
Local Open Scope Z_scope.
Set Warnings "-register-all".

(** ** JavaScript values that come out of [res.json()] *)

(** A parsed JSON document.  The fields of [JObj] are the own enumerable
    properties of the object in the order [Object.values] visits them. *)
Inductive json : Type :=
| JNull
| JBool (b : bool)
| JNum (n : Z)
| JStr (s : string)
| JArr (items : list json)
| JObj (fields : list (string * json)).

(** [`${n}`] for an integer [n]. *)
Definition number_to_string (n : Z) : string :=
  NilZero.string_of_int (Z.to_int n).

(** [xs.join(sep)] once every element has been converted to a string. *)
Fixpoint join (sep : string) (xs : list string) : string :=
  match xs with
  | [] => ""
  | [x] => x
  | x :: rest => x ++ sep ++ join sep rest
  end.

(** [String(v)].  An array prints as its elements joined by a comma, where
    [null] elements print as nothing; every plain object prints as
    [[object Object]]. *)
Fixpoint to_string (v : json) : string :=
  match v with
  | JNull => "null"
  | JBool true => "true"
  | JBool false => "false"
  | JNum n => number_to_string n
  | JStr s => s
  | JArr items =>
      join ","
        ((fix elems (l : list json) : list string :=
            match l with
            | [] => []
            | JNull :: rest => "" :: elems rest
            | x :: rest => to_string x :: elems rest
            end) items)
  | JObj _ => "[object Object]"
  end.

(** The conversion [Array.prototype.join] applies to one element. *)
Definition join_elem (v : json) : string :=
  match v with
  | JNull => ""
  | _ => to_string v
  end.

(** [!!v]. *)
Definition truthy (v : json) : bool :=
  match v with
  | JNull => false
  | JBool b => b
  | JNum n => negb (n =? 0)
  | JStr s => negb (s =? "")%string
  | JArr _ => true
  | JObj _ => true
  end.

(** ** Exceptions inside a [try] block

    The body of a [try] either yields a value or throws; every [catch] of the
    source only reads [err.message], so a thrown value is its message. *)
Inductive result (A : Type) : Type :=
| Ok (a : A)
| Throw (msg : string).
Arguments Ok {A} a.
Arguments Throw {A} msg.

Definition bind {A B : Type} (r : result A) (f : A -> result B) : result B :=
  match r with
  | Ok a => f a
  | Throw msg => Throw msg
  end.

Notation "x <- r ;; k" := (bind r (fun x => k))
  (at level 61, r at next level, right associativity).

(** Messages of the [TypeError]s raised by the engine (V8 wording) when an
    error body is [null]. *)
Definition null_detail_message : string :=
  "Cannot read properties of null (reading 'detail')".
Definition null_values_message : string :=
  "Cannot convert undefined or null to object".

Fixpoint lookup (key : string) (fields : list (string * json)) : option json :=
  match fields with
  | [] => None
  | (k, v) :: rest => if (k =? key)%string then Some v else lookup key rest
  end.

(** [errData.detail]: [None] stands for [undefined]. *)
Definition get_detail (errData : json) : result (option json) :=
  match errData with
  | JNull => Throw null_detail_message
  | JObj fields => Ok (lookup "detail" fields)
  | _ => Ok None
  end.

(** [new Error(d || fallback).message]. *)
Definition detail_or (d : option json) (fallback : string) : string :=
  match d with
  | Some v => if truthy v then to_string v else fallback
  | None => fallback
  end.

(** [Object.values(errData)]. *)
Definition object_values (errData : json) : result (list json) :=
  match errData with
  | JNull => Throw null_values_message
  | JObj fields => Ok (map snd fields)
  | JArr items => Ok items
  | JStr s => Ok (map (fun c => JStr (String c EmptyString)) (list_ascii_of_string s))
  | JBool _ => Ok []
  | JNum _ => Ok []
  end.

(** [xs.flat()]: one level of arrays is spliced in. *)
Definition flat (xs : list json) : list json :=
  flat_map (fun v => match v with JArr items => items | _ => [v] end) xs.

(** [Object.values(errData).flat().join(', ') || fallback]. *)
Definition values_or (errData : json) (fallback : string) : result string :=
  vs <- object_values errData ;;
  let joined := join ", " (map join_elem (flat vs)) in
  Ok (if (joined =? "")%string then fallback else joined).

(** ** The reactive variables *)

Record User : Type := mkUser {
  id : Z;
  name : string;
  email : string
}.

(** ['success' | 'error'] *)
Inductive MessageKind : Type := Success | Error.

(** One field per [ref] of the script.  [users] holds whatever [res.json()]
    resolved to: the annotation [User[]] is not checked at run time.  [now]
    is the clock of the event loop in milliseconds and [timers] the deadlines
    of the pending [setTimeout] callbacks, oldest first; the only callback
    the script ever schedules is [showMessage.value = false]. *)
Record State : Type := mkState {
  users : json;
  newUser : User;
  isEditing : bool;
  editingId : option Z;
  message : string;
  showMessage : bool;
  messageType : MessageKind;
  confirmVisible : bool;
  confirmUserId : option Z;
  now : Z;
  timers : list Z
}.

Definition set_users (v : json) (s : State) : State :=
  mkState v (newUser s) (isEditing s) (editingId s) (message s)
    (showMessage s) (messageType s) (confirmVisible s) (confirmUserId s)
    (now s) (timers s).
Definition set_newUser (u : User) (s : State) : State :=
  mkState (users s) u (isEditing s) (editingId s) (message s)
    (showMessage s) (messageType s) (confirmVisible s) (confirmUserId s)
    (now s) (timers s).
Definition set_isEditing (b : bool) (s : State) : State :=
  mkState (users s) (newUser s) b (editingId s) (message s)
    (showMessage s) (messageType s) (confirmVisible s) (confirmUserId s)
    (now s) (timers s).
Definition set_editingId (i : option Z) (s : State) : State :=
  mkState (users s) (newUser s) (isEditing s) i (message s)
    (showMessage s) (messageType s) (confirmVisible s) (confirmUserId s)
    (now s) (timers s).
Definition set_message (m : string) (s : State) : State :=
  mkState (users s) (newUser s) (isEditing s) (editingId s) m
    (showMessage s) (messageType s) (confirmVisible s) (confirmUserId s)
    (now s) (timers s).
Definition set_showMessage (b : bool) (s : State) : State :=
  mkState (users s) (newUser s) (isEditing s) (editingId s) (message s)
    b (messageType s) (confirmVisible s) (confirmUserId s)
    (now s) (timers s).
Definition set_messageType (k : MessageKind) (s : State) : State :=
  mkState (users s) (newUser s) (isEditing s) (editingId s) (message s)
    (showMessage s) k (confirmVisible s) (confirmUserId s)
    (now s) (timers s).
Definition set_confirmVisible (b : bool) (s : State) : State :=
  mkState (users s) (newUser s) (isEditing s) (editingId s) (message s)
    (showMessage s) (messageType s) b (confirmUserId s)
    (now s) (timers s).
Definition set_confirmUserId (i : option Z) (s : State) : State :=
  mkState (users s) (newUser s) (isEditing s) (editingId s) (message s)
    (showMessage s) (messageType s) (confirmVisible s) i
    (now s) (timers s).
Definition set_now (t : Z) (s : State) : State :=
  mkState (users s) (newUser s) (isEditing s) (editingId s) (message s)
    (showMessage s) (messageType s) (confirmVisible s) (confirmUserId s)
    t (timers s).
Definition set_timers (l : list Z) (s : State) : State :=
  mkState (users s) (newUser s) (isEditing s) (editingId s) (message s)
    (showMessage s) (messageType s) (confirmVisible s) (confirmUserId s)
    (now s) l.

(** [{ id: 0, name: '', email: '' }] *)
Definition emptyUser : User := mkUser 0 "" "".

(** The values the [ref]s are created with; the clock starts at 0. *)
Definition initial : State :=
  mkState (JArr []) emptyUser false None "" false Success false None 0 [].

(** ** Requests and replies *)

Inductive Method : Type := GET | POST | PUT | DELETE.

(** The arguments of one call of [fetch].  [body] is the object handed to
    [JSON.stringify]. *)
Record Request : Type := mkRequest {
  method : Method;
  url : string;
  headers : list (string * string);
  body : option json
}.

(** What the environment answers to [fetch(...)] followed, where the script
    asks for it, by [res.json()]: the promise of [fetch] rejects, or it
    resolves to a response with its [ok] flag, whose [json()] in turn
    resolves to a value or rejects.  No variable is read or written between
    the two [await]s, so they are one suspension. *)
Inductive Reply : Type :=
| Rejected (msg : string)
| Response (ok : bool) (parsed : result json).

Definition API_URL : string := "http://127.0.0.1:8000/api/users/".

Definition json_headers : list (string * string) :=
  [("Content-Type", "application/json")].

(** [{ name: newUser.value.name, email: newUser.value.email }] *)
Definition payload (u : User) : json :=
  JObj [("name", JStr (name u)); ("email", JStr (email u))].

(** [`${API_URL}${id}/`] *)
Definition item_url (i : Z) : string :=
  API_URL ++ number_to_string i ++ "/".

(** ** Resumable handlers

    A handler runs until it finishes ([Done], with the state it leaves) or
    until it awaits a request ([Await]: the state it leaves, the request, and
    the rest of the handler, which is resumed with the reply and with the
    state the view is in at that moment). *)
Inductive prog : Type :=
| Done (s : State)
| Await (s : State) (req : Request) (k : Reply -> State -> prog).

(** *** Popup message *)

(** [setTimeout(() => (showMessage.value = false), delay)] *)
Definition setTimeout (delay : Z) (s : State) : State :=
  set_timers (timers s ++ [now s + delay]) s.

Definition showPopup (msg : string) (type : MessageKind) (s : State) : State :=
  setTimeout 2000
    (set_showMessage true (set_messageType type (set_message msg s))).

(** [`⚠️ ${err.message}`] *)
Definition warning (msg : string) : string := "⚠️ " ++ msg.

(** *** Fetch all users (GET) *)

Definition fetchUsers_request : Request := mkRequest GET API_URL [] None.

(** The [try] block of [fetchUsers] once the reply is in. *)
Definition fetchUsers_try (r : Reply) : result json :=
  match r with
  | Rejected msg => Throw msg
  | Response ok parsed =>
      if negb ok then
        errData <- parsed ;;
        d <- get_detail errData ;;
        Throw (detail_or d "Failed to fetch users")
      else parsed
  end.

Definition fetchUsers_resume (r : Reply) (s : State) : State :=
  match fetchUsers_try r with
  | Ok v => set_users v s
  | Throw msg => showPopup (warning msg) Error s
  end.

(** [k] is what the caller does after [await fetchUsers()]. *)
Definition fetchUsers (k : State -> prog) (s : State) : prog :=
  Await s fetchUsers_request (fun r s' => k (fetchUsers_resume r s')).

(** *** Add user (POST) *)

Definition addUser_request (s : State) : Request :=
  mkRequest POST API_URL json_headers (Some (payload (newUser s))).

(** The [try] block of [addUser] up to [await fetchUsers()]. *)
Definition addUser_try (r : Reply) : result unit :=
  match r with
  | Rejected msg => Throw msg
  | Response ok parsed =>
      if negb ok then
        errData <- parsed ;;
        m <- values_or errData "Failed to add user" ;;
        Throw m
      else Ok tt
  end.

Definition addUser_resume (r : Reply) (s : State) : prog :=
  match addUser_try r with
  | Ok _ =>
      fetchUsers
        (fun s' =>
           Done (showPopup "✅ User added successfully!" Success
                   (set_newUser emptyUser s')))
        s
  | Throw msg => Done (showPopup (warning msg) Error s)
  end.

Definition addUser (s : State) : prog :=
  if (name (newUser s) =? "")%string || (email (newUser s) =? "")%string
  then Done (showPopup "Please fill all fields" Error s)
  else Await s (addUser_request s) addUser_resume.

(** *** Edit user *)

Definition editUser (user : User) (s : State) : State :=
  set_newUser user (set_editingId (Some (id user)) (set_isEditing true s)).

(** *** Cancel editing *)

Definition cancelEdit (s : State) : State :=
  showPopup "❌ Edit cancelled" Error
    (set_newUser emptyUser (set_editingId None (set_isEditing false s))).

(** *** Update user (PUT) *)

Definition updateUser_request (i : Z) (s : State) : Request :=
  mkRequest PUT (item_url i) json_headers (Some (payload (newUser s))).

Definition updateUser_try (r : Reply) : result unit :=
  match r with
  | Rejected msg => Throw msg
  | Response ok parsed =>
      if negb ok then
        errData <- parsed ;;
        m <- values_or errData "Failed to update user" ;;
        Throw m
      else Ok tt
  end.

Definition updateUser_resume (r : Reply) (s : State) : prog :=
  match updateUser_try r with
  | Ok _ =>
      fetchUsers
        (fun s' =>
           Done (showPopup "✅ User updated successfully!" Success
                   (cancelEdit s')))
        s
  | Throw msg => Done (showPopup (warning msg) Error s)
  end.

(** [!editingId.value] holds for [null] and for [0]. *)
Definition updateUser (s : State) : prog :=
  match editingId s with
  | None => Done s
  | Some i =>
      if i =? 0 then Done s
      else Await s (updateUser_request i s) updateUser_resume
  end.

(** *** Delete user (DELETE) *)

Definition deleteUser_request (i : Z) : Request :=
  mkRequest DELETE (item_url i) [] None.

Definition deleteUser_try (r : Reply) : result unit :=
  match r with
  | Rejected msg => Throw msg
  | Response ok parsed =>
      if negb ok then
        errData <- parsed ;;
        d <- get_detail errData ;;
        Throw (detail_or d "Failed to delete user")
      else Ok tt
  end.

(** [k] is what the caller does after [await deleteUser(id)]. *)
Definition deleteUser (i : Z) (k : State -> prog) (s : State) : prog :=
  Await s (deleteUser_request i)
    (fun r s' =>
       match deleteUser_try r with
       | Ok _ =>
           fetchUsers
             (fun s'' =>
                k (showPopup "🗑️ User deleted successfully!" Success s''))
             s'
       | Throw msg => k (showPopup (warning msg) Error s')
       end).

(** *** The confirmation dialog *)

Definition openConfirm (i : Z) (s : State) : State :=
  set_confirmVisible true (set_confirmUserId (Some i) s).

Definition confirmDelete (s : State) : prog :=
  match confirmUserId s with
  | Some i =>
      deleteUser i
        (fun s' => Done (set_confirmUserId None (set_confirmVisible false s')))
        s
  | None => Done s
  end.

Definition cancelDelete (s : State) : State :=
  set_confirmUserId None (set_confirmVisible false s).

(** *** The two inputs bound with [v-model] *)

Definition inputName (text : string) (s : State) : State :=
  set_newUser (mkUser (id (newUser s)) text (email (newUser s))) s.

Definition inputEmail (text : string) (s : State) : State :=
  set_newUser (mkUser (id (newUser s)) (name (newUser s)) text) s.

(** ** Everything the page can ask of the script

    [Mounted] is the call of [fetchUsers] in [onMounted]; the others are the
    [@click] and [v-model] bindings of the template. *)
Inductive Action : Type :=
| Mounted
| InputName (text : string)
| InputEmail (text : string)
| AddUser
| EditUser (user : User)
| UpdateUser
| CancelEdit
| OpenConfirm (i : Z)
| ConfirmDelete
| CancelDelete.

Definition handle (a : Action) (s : State) : prog :=
  match a with
  | Mounted => fetchUsers Done s
  | InputName text => Done (inputName text s)
  | InputEmail text => Done (inputEmail text s)
  | AddUser => addUser s
  | EditUser user => Done (editUser user s)
  | UpdateUser => updateUser s
  | CancelEdit => Done (cancelEdit s)
  | OpenConfirm i => Done (openConfirm i s)
  | ConfirmDelete => confirmDelete s
  | CancelDelete => Done (cancelDelete s)
  end.

(** ** Running one handler to its end

    [run env n p] resumes [p] at each of its suspensions with the reply the
    environment [env] gives to the [n]-th, [n+1]-th, ... request, with nothing
    else happening meanwhile, and returns the state the handler leaves
    together with the requests it issued, in order. *)
Fixpoint run (env : nat -> Reply) (n : nat) (p : prog) : State * list Request :=
  match p with
  | Done s => (s, [])
  | Await s req k =>
      let (s', reqs) := run env (S n) (k (env n) s) in (s', req :: reqs)
  end.

Definition final (env : nat -> Reply) (p : prog) : State := fst (run env 0 p).
Definition requests (env : nat -> Reply) (p : prog) : list Request :=
  snd (run env 0 p).

(** The number of requests of a given method in a list. *)
Definition count_method (m : Method) (reqs : list Request) : nat :=
  List.length
    (filter (fun r => match method r, m with
                      | GET, GET | POST, POST | PUT, PUT | DELETE, DELETE => true
                      | _, _ => false
                      end) reqs).

(** ** Time

    [advance dt] lets [dt] milliseconds pass with no other event: every
    pending callback whose deadline is reached runs (each one only clears
    [showMessage]) and leaves the queue.  A callback runs as soon as its
    deadline is reached, the earliest moment [setTimeout] allows. *)
Definition due (t : Z) (deadline : Z) : bool := deadline <=? t.

Definition advance (dt : Z) (s : State) : State :=
  let t := now s + dt in
  set_timers (filter (fun d => negb (due t d)) (timers s))
    (set_showMessage (if existsb (due t) (timers s) then false else showMessage s)
       (set_now t s)).

(** ** The event loop

    The view together with the handlers that are suspended on a request.  At
    any moment the page dispatches an action, a reply reaches one of the
    suspended handlers (in any order), or time passes.  The template only
    offers some of the actions in some states ([v-if]); here every action
    may come in every state, which covers what the template offers. *)
Record Config : Type := mkConfig {
  view : State;
  inflight : list (Request * (Reply -> State -> prog))
}.

Definition settle (p : prog) (others : list (Request * (Reply -> State -> prog)))
  : Config :=
  match p with
  | Done s => mkConfig s others
  | Await s req k => mkConfig s (others ++ [(req, k)])%list
  end.

Inductive step : Config -> Config -> Prop :=
| step_action (a : Action) (c : Config) :
    step c (settle (handle a (view c)) (inflight c))
| step_reply (c : Config) before req k after (r : Reply) :
    inflight c = (before ++ (req, k) :: after)%list ->
    step c (settle (k r (view c)) (before ++ after)%list)
| step_time (c : Config) (dt : Z) :
    0 <= dt ->
    step c (mkConfig (advance dt (view c)) (inflight c)).

Inductive reachable : Config -> Prop :=
| reach_initial : reachable (mkConfig initial [])
| reach_step c c' : reachable c -> step c c' -> reachable c'.

(** The two pairs of variables agree: a flag is up exactly when its
    identifier is not [null]. *)
Definition consistent (s : State) : Prop :=
  (isEditing s = true <-> editingId s <> None) /\
  (confirmVisible s = true <-> confirmUserId s <> None).

(** [P] holds of every state a handler leaves, now and after each of its
    resumptions, as long as it holds of the states it is resumed in. *)
Inductive preserves (P : State -> Prop) : prog -> Prop :=
| preserves_done s : P s -> preserves P (Done s)
| preserves_await s req k :
    P s ->
    (forall r s', P s' -> preserves P (k r s')) ->
    preserves P (Await s req k).

(** [P] holds of the state a handler leaves when it finishes, whatever the
    replies and whatever the states it is resumed in. *)
Inductive finishes (P : State -> Prop) : prog -> Prop :=
| finishes_done s : P s -> finishes P (Done s)
| finishes_await s req k :
    (forall r s', finishes P (k r s')) ->
    finishes P (Await s req k).

(** A reply that reports a failure: the transport failed or the status is
    not a success status. *)
Definition failed (r : Reply) : bool :=
  match r with
  | Rejected _ => true
  | Response ok _ => negb ok
  end.

(** A reply to the list request whose body cannot be used. *)
Definition unreadable (r : Reply) : bool :=
  match r with
  | Response _ (Throw _) => true
  | _ => false
  end.

(** [s'] differs from [s] at most in the two variables of the confirmation
    dialog. *)
Definition same_except_confirm (s s' : State) : Prop :=
  users s' = users s /\ newUser s' = newUser s /\
  isEditing s' = isEditing s /\ editingId s' = editingId s /\
  message s' = message s /\ showMessage s' = showMessage s /\
  messageType s' = messageType s /\ now s' = now s /\ timers s' = timers s.

(** The requests a handler issues when it runs to its end, read off the
    source: the one request of the handler itself, then the list request of
    [fetchUsers] when the [try] block gets that far. *)
Definition refetch (A : Type) (r : result A) : list Request :=
  match r with
  | Ok _ => [fetchUsers_request]
  | Throw _ => []
  end.
Arguments refetch {A} r.

(** What is kept true of a configuration of the event loop. *)
Definition sound (c : Config) : Prop :=
  consistent (view c) /\
  Forall (fun rk => forall r s, consistent s -> preserves consistent (snd rk r s))
    (inflight c).

(** ** What the template offers

    The buttons of the form and of the confirmation dialog with the [v-if]
    (or [v-else]) that guards each, and the handler its [@click] names. *)
Inductive Button : Type :=
| AddButton
| UpdateButton
| CancelButton
| ConfirmYes
| ConfirmNo.

Definition rendered (s : State) (b : Button) : bool :=
  match b with
  | AddButton => negb (isEditing s)
  | UpdateButton => isEditing s
  | CancelButton => isEditing s
  | ConfirmYes => confirmVisible s
  | ConfirmNo => confirmVisible s
  end.

Definition click (b : Button) : Action :=
  match b with
  | AddButton => AddUser
  | UpdateButton => UpdateUser
  | CancelButton => CancelEdit
  | ConfirmYes => ConfirmDelete
  | ConfirmNo => CancelDelete
  end.

(** ** Several actions in a row

    [perform env acts s]: the actions of [acts] one after the other, each
    handler run to its end (with the replies of [env]) before the next
    starts. *)
Definition perform (env : nat -> Reply) (acts : list Action) (s : State) : State :=
  fold_left (fun s' a => final env (handle a s')) acts s.

(** The two actions of the [v-model] inputs. *)
Definition is_input (a : Action) : bool :=
  match a with
  | InputName _ | InputEmail _ => true
  | _ => false
  end.

(** The text an input holds after a run of actions, [start] when none of
    them typed into it. *)
Definition typed_name (acts : list Action) (start : string) : string :=
  fold_left (fun t a => match a with InputName text => text | _ => t end)
    acts start.
Definition typed_email (acts : list Action) (start : string) : string :=
  fold_left (fun t a => match a with InputEmail text => text | _ => t end)
    acts start.

(** ** The pending hides

    Every pending hide is due later than now and at most 2000 ms from now,
    and a visible popup has a hide pending. *)
Definition hides_bounded (s : State) : Prop :=
  Forall (fun d => now s < d <= now s + 2000) (timers s) /\
  (showMessage s = true -> timers s <> []).

(** ** Background image change every 15 seconds

    [index] lives apart from the other variables: only the callback of
    [setInterval] reads or writes it. *)
Definition images : list string :=
  ["/bg1.jpg"; "/bg4.jpg"; "/bg2.png"; "/bg3.jpg"].

(** [index.value = (index.value + 1) % images.length]; [%] is the remainder
    that takes the sign of the dividend. *)
Definition rotate (index : Z) : Z :=
  Z.rem (index + 1) (Z.of_nat (List.length images)).

(** [`url(${images[index.value]})`]; an index outside the array reads
    [undefined]. *)
Definition backgroundImage (index : Z) : string :=
  "url(" ++
  (if index <? 0 then "undefined"
   else match nth_error images (Z.to_nat index) with
        | Some path => path
        | None => "undefined"
        end) ++ ")".

(** The value of [index] when [t] milliseconds have passed since
    [onMounted]: it starts at 0 and the callback has run once per full
    period of 15000 ms. *)
Definition index_at (t : Z) : Z :=
  Nat.iter (Z.to_nat (t / 15000)) rotate 0.

(** * Properties *)

(** ** Helper lemmas on the [try] blocks *)

Lemma addUser_try_failed r :
  failed r = true -> exists msg, addUser_try r = Throw msg.
Proof.
  destruct r as [msg | ok parsed]; simpl; [eauto |].
  intros H; apply negb_true_iff in H; subst ok; simpl.
  destruct parsed as [errData | msg]; simpl; [| eauto].
  unfold values_or.
  destruct (object_values errData) as [vs | msg]; simpl; eauto.
Qed.

Lemma updateUser_try_failed r :
  failed r = true -> exists msg, updateUser_try r = Throw msg.
Proof.
  destruct r as [msg | ok parsed]; simpl; [eauto |].
  intros H; apply negb_true_iff in H; subst ok; simpl.
  destruct parsed as [errData | msg]; simpl; [| eauto].
  unfold values_or.
  destruct (object_values errData) as [vs | msg]; simpl; eauto.
Qed.

Lemma deleteUser_try_failed r :
  failed r = true -> exists msg, deleteUser_try r = Throw msg.
Proof.
  destruct r as [msg | ok parsed]; simpl; [eauto |].
  intros H; apply negb_true_iff in H; subst ok; simpl.
  destruct parsed as [errData | msg]; simpl; [| eauto].
  destruct (get_detail errData) as [d | msg]; simpl; eauto.
Qed.

Lemma fetchUsers_try_failed r :
  failed r = true \/ unreadable r = true ->
  exists msg, fetchUsers_try r = Throw msg.
Proof.
  destruct r as [msg | ok parsed]; simpl; [eauto |].
  destruct parsed as [errData | msg]; simpl.
  - intros [H | H]; [| discriminate].
    apply negb_true_iff in H; subst ok; simpl.
    destruct (get_detail errData) as [d | msg]; simpl; eauto.
  - intros _. destruct ok; simpl; eauto.
Qed.

Lemma addUser_try_ok parsed : addUser_try (Response true parsed) = Ok tt.
Proof. reflexivity. Qed.

Lemma updateUser_try_ok parsed : updateUser_try (Response true parsed) = Ok tt.
Proof. reflexivity. Qed.

(** What [fetchUsers] leaves untouched whatever the reply. *)
Lemma fetchUsers_resume_frame r s :
  let s' := fetchUsers_resume r s in
  newUser s' = newUser s /\ isEditing s' = isEditing s /\
  editingId s' = editingId s /\ confirmVisible s' = confirmVisible s /\
  confirmUserId s' = confirmUserId s /\ now s' = now s.
Proof.
  unfold fetchUsers_resume.
  destruct (fetchUsers_try r); simpl; repeat split; reflexivity.
Qed.

Lemma fetchUsers_resume_failed r s :
  failed r = true \/ unreadable r = true ->
  users (fetchUsers_resume r s) = users s.
Proof.
  intros H. destruct (fetchUsers_try_failed r H) as [msg E].
  unfold fetchUsers_resume. rewrite E. reflexivity.
Qed.

(** Unfolding [run] through the handlers. *)
Lemma run_fetchUsers env n k s :
  run env n (fetchUsers k s) =
  (fst (run env (S n) (k (fetchUsers_resume (env n) s))),
   fetchUsers_request :: snd (run env (S n) (k (fetchUsers_resume (env n) s)))).
Proof.
  simpl. destruct (run env (S n) (k (fetchUsers_resume (env n) s))); reflexivity.
Qed.

Lemma run_Await env n s req k :
  run env n (Await s req k) =
  (fst (run env (S n) (k (env n) s)), req :: snd (run env (S n) (k (env n) s))).
Proof.
  simpl. destruct (run env (S n) (k (env n) s)); reflexivity.
Qed.

(** ** The requests of each handler *)

Lemma requests_handle env a s :
  requests env (handle a s) =
  match a with
  | Mounted => [fetchUsers_request]
  | AddUser =>
      if (name (newUser s) =? "")%string || (email (newUser s) =? "")%string
      then []
      else addUser_request s :: refetch (addUser_try (env 0%nat))
  | UpdateUser =>
      match editingId s with
      | None => []
      | Some i =>
          if i =? 0 then []
          else updateUser_request i s :: refetch (updateUser_try (env 0%nat))
      end
  | ConfirmDelete =>
      match confirmUserId s with
      | None => []
      | Some i => deleteUser_request i :: refetch (deleteUser_try (env 0%nat))
      end
  | _ => []
  end.
Proof.
  unfold requests.
  destruct a; simpl handle; try reflexivity.
  - unfold addUser.
    destruct ((name (newUser s) =? "")%string || (email (newUser s) =? "")%string);
      [reflexivity |].
    rewrite run_Await. unfold addUser_resume. cbn [snd].
    destruct (addUser_try (env 0%nat)); reflexivity.
  - unfold updateUser.
    destruct (editingId s) as [i |]; [| reflexivity].
    destruct (i =? 0); [reflexivity |].
    rewrite run_Await. unfold updateUser_resume. cbn [snd].
    destruct (updateUser_try (env 0%nat)); reflexivity.
  - unfold confirmDelete.
    destruct (confirmUserId s) as [i |]; [| reflexivity].
    unfold deleteUser. rewrite run_Await. cbn [snd].
    destruct (deleteUser_try (env 0%nat)); reflexivity.
Qed.

Lemma in_refetch A (r : result A) req :
  In req (refetch r) -> req = fetchUsers_request.
Proof.
  destruct r; simpl; intros H; [destruct H as [H | []]; auto | destruct H].
Qed.

(** The state [confirmDelete] leaves when an identifier is pending. *)
Lemma confirmDelete_final env s i :
  confirmUserId s = Some i ->
  confirmVisible (final env (handle ConfirmDelete s)) = false /\
  confirmUserId (final env (handle ConfirmDelete s)) = None.
Proof.
  intros H. unfold final. simpl handle. unfold confirmDelete. rewrite H.
  unfold deleteUser. rewrite run_Await. cbn [fst].
  destruct (deleteUser_try (env 0%nat)).
  - rewrite run_fetchUsers. simpl. auto.
  - simpl. auto.
Qed.

(** The state [updateUser] leaves, by the outcome of its [try] block. *)
Lemma updateUser_final env s i :
  editingId s = Some i -> i <> 0 ->
  final env (handle UpdateUser s) =
  match updateUser_try (env 0%nat) with
  | Ok _ =>
      showPopup "✅ User updated successfully!" Success
        (cancelEdit (fetchUsers_resume (env 1%nat) s))
  | Throw msg => showPopup (warning msg) Error s
  end.
Proof.
  intros H Hi. unfold final. simpl handle. unfold updateUser. rewrite H.
  apply Z.eqb_neq in Hi. rewrite Hi.
  rewrite run_Await. cbn [fst]. unfold updateUser_resume.
  destruct (updateUser_try (env 0%nat)); [rewrite run_fetchUsers |]; reflexivity.
Qed.

Lemma updateUser_requests env s i :
  editingId s = Some i -> i <> 0 ->
  requests env (handle UpdateUser s) =
  updateUser_request i s :: refetch (updateUser_try (env 0%nat)).
Proof.
  intros H Hi. rewrite requests_handle. rewrite H.
  apply Z.eqb_neq in Hi. rewrite Hi. reflexivity.
Qed.

(** The state [addUser] leaves once the two fields are filled in. *)
Lemma addUser_final env s :
  name (newUser s) <> "" -> email (newUser s) <> "" ->
  final env (handle AddUser s) =
  match addUser_try (env 0%nat) with
  | Ok _ =>
      showPopup "✅ User added successfully!" Success
        (set_newUser emptyUser (fetchUsers_resume (env 1%nat) s))
  | Throw msg => showPopup (warning msg) Error s
  end.
Proof.
  intros Hn He. unfold final. simpl handle. unfold addUser.
  apply String.eqb_neq in Hn, He. rewrite Hn, He. cbn [orb].
  rewrite run_Await. cbn [fst]. unfold addUser_resume.
  destruct (addUser_try (env 0%nat)); [rewrite run_fetchUsers |]; reflexivity.
Qed.

(** ** Time and the popup *)

Lemma existsb_due_app t l d :
  existsb (due t) (l ++ [d]) = existsb (due t) l || due t d.
Proof. rewrite existsb_app. simpl. rewrite orb_false_r. reflexivity. Qed.

Lemma filter_due_twice t1 t2 l :
  t1 <= t2 ->
  filter (fun d => negb (due t2 d)) (filter (fun d => negb (due t1 d)) l) =
  filter (fun d => negb (due t2 d)) l.
Proof.
  intros Hle. unfold due. induction l as [| d l IH]; [reflexivity |].
  cbn [filter].
  destruct (d <=? t1) eqn:E1; destruct (d <=? t2) eqn:E2; cbn [negb filter];
    rewrite ?E2; cbn [negb]; rewrite ?IH; try reflexivity.
  apply Z.leb_le in E1. apply Z.leb_gt in E2. lia.
Qed.

Lemma existsb_due_twice t1 t2 l (b : bool) :
  t1 <= t2 ->
  (if existsb (due t2) (filter (fun d => negb (due t1 d)) l)
   then false
   else if existsb (due t1) l then false else b) =
  (if existsb (due t2) l then false else b).
Proof.
  intros Hle. unfold due. induction l as [| d l IH]; [reflexivity |].
  cbn [filter existsb].
  destruct (d <=? t1) eqn:E1; destruct (d <=? t2) eqn:E2;
    cbn [negb filter existsb orb]; rewrite ?E2; cbn [orb]; try reflexivity.
  - destruct (existsb (fun deadline => deadline <=? t2)
                (filter (fun d0 => negb (d0 <=? t1)) l)); reflexivity.
  - apply Z.leb_le in E1. apply Z.leb_gt in E2. lia.
  - exact IH.
Qed.

(** Letting time pass in two stretches is letting it pass in one. *)
Lemma advance_advance a b s :
  0 <= a -> 0 <= b -> advance b (advance a s) = advance (a + b) s.
Proof.
  intros Ha Hb. unfold advance. simpl.
  rewrite Z.add_assoc.
  rewrite (filter_due_twice (now s + a) (now s + a + b)) by lia.
  rewrite (existsb_due_twice (now s + a) (now s + a + b)) by lia.
  reflexivity.
Qed.

(** ** The two flags and their identifiers *)

Lemma consistent_same s s' :
  isEditing s' = isEditing s -> editingId s' = editingId s ->
  confirmVisible s' = confirmVisible s -> confirmUserId s' = confirmUserId s ->
  consistent s -> consistent s'.
Proof.
  unfold consistent. intros -> -> -> ->. auto.
Qed.

Lemma consistent_initial : consistent initial.
Proof.
  unfold consistent. simpl. split; split; (discriminate || congruence).
Qed.

Lemma consistent_showPopup msg kind s :
  consistent s -> consistent (showPopup msg kind s).
Proof. apply consistent_same; reflexivity. Qed.

Lemma consistent_advance dt s : consistent s -> consistent (advance dt s).
Proof. apply consistent_same; reflexivity. Qed.

Lemma consistent_fetchUsers_resume r s :
  consistent s -> consistent (fetchUsers_resume r s).
Proof.
  apply consistent_same; apply (fetchUsers_resume_frame r s).
Qed.

Lemma consistent_cancelEdit s : consistent s -> consistent (cancelEdit s).
Proof.
  unfold consistent. simpl. intros [_ H]. split; [| exact H].
  split; [discriminate | congruence].
Qed.

Lemma consistent_editUser user s : consistent s -> consistent (editUser user s).
Proof.
  unfold consistent. simpl. intros [_ H]. split; [| exact H].
  split; [discriminate | reflexivity].
Qed.

Lemma consistent_openConfirm i s : consistent s -> consistent (openConfirm i s).
Proof.
  unfold consistent. simpl. intros [H _]. split; [exact H |].
  split; [discriminate | reflexivity].
Qed.

Lemma consistent_cancelDelete s : consistent s -> consistent (cancelDelete s).
Proof.
  unfold consistent. simpl. intros [H _]. split; [exact H |].
  split; [discriminate | congruence].
Qed.

Create HintDb view.
#[local] Hint Resolve consistent_showPopup consistent_advance
  consistent_fetchUsers_resume consistent_cancelEdit consistent_editUser
  consistent_openConfirm consistent_cancelDelete consistent_initial : view.

Lemma preserves_fetchUsers k s :
  consistent s ->
  (forall s', consistent s' -> preserves consistent (k s')) ->
  preserves consistent (fetchUsers k s).
Proof.
  intros Hs Hk. unfold fetchUsers. constructor; [exact Hs |].
  intros r s' Hs'. apply Hk. auto with view.
Qed.

(** Every handler keeps the flags and the identifiers in agreement, also
    when other events change the view while it is suspended. *)
Lemma handle_preserves a s :
  consistent s -> preserves consistent (handle a s).
Proof.
  intros Hs. destruct a; simpl.
  - apply preserves_fetchUsers; [exact Hs |]. intros; constructor; assumption.
  - constructor. revert Hs. apply consistent_same; reflexivity.
  - constructor. revert Hs. apply consistent_same; reflexivity.
  - unfold addUser.
    destruct ((name (newUser s) =? "")%string || (email (newUser s) =? "")%string).
    + constructor. auto with view.
    + constructor; [exact Hs |]. intros r s' Hs'. unfold addUser_resume.
      destruct (addUser_try r).
      * apply preserves_fetchUsers; [exact Hs' |]. intros s'' Hs''.
        constructor. apply consistent_showPopup.
        revert Hs''. apply consistent_same; reflexivity.
      * constructor. auto with view.
  - constructor. auto with view.
  - unfold updateUser. destruct (editingId s) as [i |] eqn:Ei.
    + destruct (i =? 0).
      * constructor; exact Hs.
      * constructor; [exact Hs |]. intros r s' Hs'. unfold updateUser_resume.
        destruct (updateUser_try r).
        -- apply preserves_fetchUsers; [exact Hs' |]. intros s'' Hs''.
           constructor. auto with view.
        -- constructor. auto with view.
    + constructor; exact Hs.
  - constructor. auto with view.
  - constructor. auto with view.
  - unfold confirmDelete. destruct (confirmUserId s) as [i |] eqn:Ei.
    + unfold deleteUser. constructor; [exact Hs |]. intros r s' Hs'.
      destruct (deleteUser_try r).
      * apply preserves_fetchUsers; [exact Hs' |]. intros s'' Hs''.
        constructor. apply (consistent_cancelDelete (showPopup _ _ s'')).
        auto with view.
      * constructor. apply (consistent_cancelDelete (showPopup _ _ s')).
        auto with view.
    + constructor; exact Hs.
  - constructor. auto with view.
Qed.

Lemma preserves_run P env p :
  preserves P p -> forall n, P (fst (run env n p)).
Proof.
  induction 1 as [s Hs | s req k Hs Hk IH]; intros n.
  - exact Hs.
  - rewrite run_Await. cbn [fst]. apply IH. exact Hs.
Qed.

Lemma sound_settle p others :
  preserves consistent p ->
  Forall (fun rk => forall r s, consistent s -> preserves consistent (snd rk r s))
    others ->
  sound (settle p others).
Proof.
  intros Hp Ho. destruct Hp as [s Hs | s req k Hs Hk]; simpl.
  - split; assumption.
  - split; [exact Hs |]. apply Forall_app. split; [exact Ho |].
    constructor; [exact Hk | constructor].
Qed.

Lemma sound_step c c' : sound c -> step c c' -> sound c'.
Proof.
  intros [Hv Hf] Hstep. destruct Hstep as [a c | c before req k after r E | c dt Hdt].
  - apply sound_settle; [apply handle_preserves; exact Hv | exact Hf].
  - rewrite E in Hf. apply Forall_app in Hf. destruct Hf as [Hb Ha].
    inversion Ha as [| x l Hk Hrest]; subst.
    apply sound_settle.
    + apply (Hk r (view c) Hv).
    + apply Forall_app. split; assumption.
  - split; [apply consistent_advance; exact Hv | exact Hf].
Qed.

Lemma sound_reachable c : reachable c -> sound c.
Proof.
  induction 1 as [| c c' Hc IH Hstep].
  - split; [apply consistent_initial | constructor].
  - apply (sound_step c c' IH Hstep).
Qed.

Lemma finishes_fetchUsers (P : State -> Prop) k s :
  (forall s', finishes P (k s')) -> finishes P (fetchUsers k s).
Proof. intros H. unfold fetchUsers. constructor. intros r s'. apply H. Qed.

Lemma finishes_run P env p :
  finishes P p -> forall n, P (fst (run env n p)).
Proof.
  induction 1 as [s Hs | s req k Hk IH]; intros n.
  - exact Hs.
  - rewrite run_Await. cbn [fst]. apply IH.
Qed.

(** [confirmDelete] with a pending identifier ends with the dialog closed,
    whatever happens while it is suspended. *)
Lemma confirmDelete_finishes s i :
  confirmUserId s = Some i ->
  finishes (fun s' => confirmVisible s' = false /\ confirmUserId s' = None)
    (handle ConfirmDelete s).
Proof.
  intros H. simpl. unfold confirmDelete. rewrite H. unfold deleteUser.
  constructor. intros r s'. destruct (deleteUser_try r).
  - apply finishes_fetchUsers. intros s''. constructor. simpl. auto.
  - constructor. simpl. auto.
Qed.

(** ** The claims *)

(** C1. Deletion takes two steps.  [openConfirm] only records the identifier
    and shows the dialog, without a request.  A DELETE request only ever
    comes from [confirmDelete], and it goes to the item path of the
    remembered identifier; after [openConfirm i] that is the path ending in
    [i/], and it is the only DELETE.  [cancelDelete] after [openConfirm]
    issues no request, clears identifier and flag and leaves the notification
    as it was.  Once [confirmDelete] has run with a remembered identifier,
    identifier and flag are cleared whatever the server replied, also when
    other events reach the view while the handler is suspended. *)
Theorem delete_is_two_phase :
  forall (i : Z) (s : State) (env : nat -> Reply),
    let opened := final env (handle (OpenConfirm i) s) in
    let cancelled := final env (handle CancelDelete opened) in
    (requests env (handle (OpenConfirm i) s) = [] /\
     confirmUserId opened = Some i /\ confirmVisible opened = true /\
     same_except_confirm s opened) /\
    (forall a s0 req,
        In req (requests env (handle a s0)) -> method req = DELETE ->
        a = ConfirmDelete /\
        exists j, confirmUserId s0 = Some j /\
                  url req = API_URL ++ number_to_string j ++ "/") /\
    (exists rest,
        requests env (handle ConfirmDelete opened) =
          mkRequest DELETE (API_URL ++ number_to_string i ++ "/") [] None :: rest /\
        count_method DELETE (requests env (handle ConfirmDelete opened)) = 1%nat) /\
    (requests env (handle CancelDelete opened) = [] /\
     confirmUserId cancelled = None /\ confirmVisible cancelled = false /\
     same_except_confirm opened cancelled) /\
    (forall s0 j, confirmUserId s0 = Some j ->
        confirmVisible (final env (handle ConfirmDelete s0)) = false /\
        confirmUserId (final env (handle ConfirmDelete s0)) = None) /\
    (forall s0 j, confirmUserId s0 = Some j ->
        finishes (fun s' => confirmVisible s' = false /\ confirmUserId s' = None)
          (handle ConfirmDelete s0)).
Proof.
  intros i s env opened cancelled.
  split; [| split; [| split; [| split; [| split]]]].
  - unfold same_except_confirm. subst opened. simpl. repeat split; reflexivity.
  - intros a s0 req Hin Hm. rewrite requests_handle in Hin.
    destruct a; simpl in Hin; try contradiction.
    + destruct Hin as [<- | []]. discriminate.
    + destruct ((name (newUser s0) =? "")%string || (email (newUser s0) =? "")%string);
        [contradiction |].
      destruct Hin as [<- | Hin]; [discriminate |].
      apply in_refetch in Hin. subst req. discriminate.
    + destruct (editingId s0) as [j |]; [| contradiction].
      destruct (j =? 0); [contradiction |].
      destruct Hin as [<- | Hin]; [discriminate |].
      apply in_refetch in Hin. subst req. discriminate.
    + split; [reflexivity |].
      destruct (confirmUserId s0) as [j |]; [| contradiction].
      exists j. split; [reflexivity |].
      destruct Hin as [<- | Hin]; [reflexivity |].
      apply in_refetch in Hin. subst req. discriminate.
  - rewrite requests_handle. subst opened. simpl.
    exists (refetch (deleteUser_try (env 0%nat))). split; [reflexivity |].
    destruct (deleteUser_try (env 0%nat)); reflexivity.
  - unfold same_except_confirm. subst cancelled opened. simpl.
    repeat split; reflexivity.
  - intros s0 j H. apply (confirmDelete_final env s0 j H).
  - intros s0 j H. apply (confirmDelete_finishes s0 j H).
Qed.

(** The scenario of the specification: a deletion confirmed on 7 goes to the
    path ending in [7/]. *)
Example delete_7_path :
  requests (fun _ => Response true (Ok JNull))
    (handle ConfirmDelete (openConfirm 7 initial)) =
  [mkRequest DELETE "http://127.0.0.1:8000/api/users/7/" [] None;
   mkRequest GET "http://127.0.0.1:8000/api/users/" [] None].
Proof. reflexivity. Qed.

(** C2. With an empty name or an empty email in the draft, [addUser] issues
    no request and shows an error notification.  With both filled in it
    issues exactly one POST, to the collection endpoint, whose body is the
    object with the two fields [name] and [email] of the draft and no
    identifier. *)
Theorem create_requires_both_fields :
  forall (s : State) (env : nat -> Reply),
    (name (newUser s) = "" \/ email (newUser s) = "" ->
     requests env (handle AddUser s) = [] /\
     messageType (final env (handle AddUser s)) = Error /\
     showMessage (final env (handle AddUser s)) = true /\
     message (final env (handle AddUser s)) = "Please fill all fields") /\
    (name (newUser s) <> "" -> email (newUser s) <> "" ->
     (exists rest,
         requests env (handle AddUser s) =
           mkRequest POST API_URL [("Content-Type", "application/json")]
             (Some (JObj [("name", JStr (name (newUser s)));
                          ("email", JStr (email (newUser s)))])) :: rest) /\
     count_method POST (requests env (handle AddUser s)) = 1%nat).
Proof.
  intros s env. split.
  - intros H.
    assert (G : (name (newUser s) =? "")%string || (email (newUser s) =? "")%string = true).
    { apply orb_true_iff. destruct H as [H | H]; rewrite H; auto. }
    rewrite requests_handle. unfold final. simpl handle. unfold addUser.
    rewrite G. simpl. auto.
  - intros Hn He.
    assert (G : (name (newUser s) =? "")%string || (email (newUser s) =? "")%string = false).
    { apply orb_false_iff. split; apply String.eqb_neq; assumption. }
    rewrite requests_handle. rewrite G. split.
    + eexists. reflexivity.
    + destruct (addUser_try (env 0%nat)); reflexivity.
Qed.

Lemma create_requires_both_fields_witness :
  let s := inputEmail "ann@example.com" (inputName "Ann" initial) in
  let env := fun _ : nat => Response true (Ok (JArr [])) in
  count_method POST (requests env (handle AddUser s)) = 1%nat /\
  requests env (handle AddUser initial) = [].
Proof.
  split.
  - apply (create_requires_both_fields
             (inputEmail "ann@example.com" (inputName "Ann" initial))
             (fun _ => Response true (Ok (JArr [])))); simpl; discriminate.
  - apply (create_requires_both_fields initial
             (fun _ => Response true (Ok (JArr [])))). left. reflexivity.
Defined.

(** C7. [cancelEdit] leaves edit mode in every state: flag down, identifier
    [null], draft reset to the empty record, no request, and an error kind
    notification that says the edit was cancelled.  In particular
    [editUser] followed by [cancelEdit] ends with the empty draft outside
    edit mode, and neither issues a request. *)
Theorem cancel_edit_is_unconditional :
  forall (s : State) (user : User) (env : nat -> Reply),
    let cancelled := final env (handle CancelEdit s) in
    let edited := final env (handle (EditUser user) s) in
    let back := final env (handle CancelEdit edited) in
    (isEditing cancelled = false /\ editingId cancelled = None /\
     newUser cancelled = mkUser 0 "" "" /\
     requests env (handle CancelEdit s) = [] /\
     messageType cancelled = Error /\ showMessage cancelled = true /\
     message cancelled = "❌ Edit cancelled") /\
    (isEditing edited = true /\ editingId edited = Some (id user) /\
     newUser edited = user) /\
    (isEditing back = false /\ editingId back = None /\
     newUser back = mkUser 0 "" "" /\
     (requests env (handle (EditUser user) s) ++
      requests env (handle CancelEdit edited))%list = []).
Proof.
  intros s user env cancelled edited back.
  subst cancelled edited back. unfold final, requests. simpl.
  repeat split; reflexivity.
Qed.

(** C9. [updateUser] starts with [if (!editingId.value) return]: when the
    identifier being edited is [null] or 0 it issues no request and leaves
    the state as it is.  After [editUser] on a record whose identifier is 0
    the flag is up and [updateUser] still does nothing. *)
Theorem update_needs_truthy_identifier :
  forall (s : State) (env : nat -> Reply),
    editingId s = None \/ editingId s = Some 0 ->
    handle UpdateUser s = Done s /\
    requests env (handle UpdateUser s) = [] /\
    final env (handle UpdateUser s) = s /\
    (forall (user : User) (s0 : State),
        id user = 0 ->
        isEditing (editUser user s0) = true /\
        handle UpdateUser (editUser user s0) = Done (editUser user s0) /\
        requests env (handle UpdateUser (editUser user s0)) = []).
Proof.
  intros s env H.
  assert (G : forall s1, editingId s1 = None \/ editingId s1 = Some 0 ->
                         handle UpdateUser s1 = Done s1).
  { intros s1 H1. simpl. unfold updateUser.
    destruct H1 as [H1 | H1]; rewrite H1; reflexivity. }
  split; [apply G; assumption |].
  unfold requests, final. rewrite (G s H).
  split; [reflexivity |]. split; [reflexivity |].
  intros user s0 Hid.
  assert (E : editingId (editUser user s0) = None \/
              editingId (editUser user s0) = Some 0).
  { right. simpl. rewrite Hid. reflexivity. }
  rewrite (G _ E). repeat split; reflexivity.
Qed.

Lemma update_needs_truthy_identifier_witness :
  let s := editUser (mkUser 0 "Zed" "zed@example.com") initial in
  isEditing s = true /\
  handle UpdateUser s = Done s.
Proof.
  split; [reflexivity |].
  destruct (update_needs_truthy_identifier
              (editUser (mkUser 0 "Zed" "zed@example.com") initial)
              (fun _ => Rejected "offline")
              (or_intror eq_refl)) as [H _].
  exact H.
Defined.

(** C10. [confirmDelete] with no pending identifier issues no request and
    leaves the whole state, the dialog flag included, as it is; the flag is
    cleared only on the path where an identifier is pending. *)
Theorem confirm_without_pending_identifier :
  forall (s : State) (env : nat -> Reply),
    confirmUserId s = None ->
    handle ConfirmDelete s = Done s /\
    requests env (handle ConfirmDelete s) = [] /\
    final env (handle ConfirmDelete s) = s /\
    confirmVisible (final env (handle ConfirmDelete s)) = confirmVisible s /\
    (forall s0 j, confirmUserId s0 = Some j ->
        confirmVisible (final env (handle ConfirmDelete s0)) = false).
Proof.
  intros s env H.
  assert (G : handle ConfirmDelete s = Done s).
  { simpl. unfold confirmDelete. rewrite H. reflexivity. }
  unfold requests, final. rewrite G. simpl.
  repeat split; try reflexivity.
  intros s0 j H0. apply (confirmDelete_final env s0 j H0).
Qed.

Lemma confirm_without_pending_identifier_witness :
  let s := set_confirmVisible true initial in
  handle ConfirmDelete s = Done s /\
  confirmVisible (final (fun _ => Rejected "offline") (handle ConfirmDelete s)) = true.
Proof.
  pose proof (confirm_without_pending_identifier
                (set_confirmVisible true initial)
                (fun _ => Rejected "offline") eq_refl) as H.
  split; [apply H |].
  destruct H as [_ [_ [_ [H _]]]]. exact H.
Defined.

(** C3 as stated fails: the text shown is not the joined values alone, every
    [catch] puts the warning sign and a space in front of [err.message]. *)
Lemma update_failure_text_counterexample :
  let s := editUser (mkUser 3 "Ann" "ann@example.com") initial in
  let env := fun _ : nat =>
    Response false (Ok (JObj [("email", JArr [JStr "already exists"])])) in
  message (final env (handle UpdateUser s)) = "⚠️ already exists" /\
  (message (final env (handle UpdateUser s)) =? "already exists")%string = false.
Proof. split; vm_compute; reflexivity. Qed.

(** C3, amended. When [updateUser] gets a non-success response whose body is
    [{"email":["already exists"]}], the notification text is the warning sign
    and a space followed by [already exists] (the top-level values of the
    body, arrays flattened, joined with a comma and a space), its kind is
    error, the flag and the identifier of edit mode are unchanged, the draft
    is intact, and the PUT is the only request. *)
Theorem update_failure_keeps_edit_mode :
  forall (s : State) (i : Z) (env : nat -> Reply),
    editingId s = Some i -> i <> 0 ->
    env 0%nat = Response false (Ok (JObj [("email", JArr [JStr "already exists"])])) ->
    let s' := final env (handle UpdateUser s) in
    message s' = "⚠️ already exists" /\
    values_or (JObj [("email", JArr [JStr "already exists"])]) "Failed to update user"
      = Ok "already exists" /\
    messageType s' = Error /\ showMessage s' = true /\
    isEditing s' = isEditing s /\ editingId s' = editingId s /\
    newUser s' = newUser s /\
    requests env (handle UpdateUser s) = [updateUser_request i s].
Proof.
  intros s i env H Hi Henv s'. subst s'.
  rewrite (updateUser_final env s i H Hi), (updateUser_requests env s i H Hi).
  rewrite Henv. simpl. repeat split; reflexivity.
Qed.

Lemma update_failure_keeps_edit_mode_witness :
  let s := editUser (mkUser 3 "Ann" "ann@example.com") initial in
  let env := fun _ : nat =>
    Response false (Ok (JObj [("email", JArr [JStr "already exists"])])) in
  isEditing (final env (handle UpdateUser s)) = true /\
  editingId (final env (handle UpdateUser s)) = Some 3 /\
  newUser (final env (handle UpdateUser s)) = mkUser 3 "Ann" "ann@example.com".
Proof.
  destruct (update_failure_keeps_edit_mode
              (editUser (mkUser 3 "Ann" "ann@example.com") initial) 3
              (fun _ => Response false
                          (Ok (JObj [("email", JArr [JStr "already exists"])])))
              eq_refl ltac:(discriminate) eq_refl)
    as [_ [_ [_ [_ [H1 [H2 H3]]]]]].
  split; [exact H1 |]. split; [exact H2 | apply H3].
Defined.

(** C5. A PUT request only ever comes from [updateUser], and it goes to the
    item path of the identifier being edited.  When the PUT succeeds, edit
    mode is left (flag down, identifier [null], draft reset to the empty
    record), the list is fetched again right after the PUT, and the
    notification that remains is the success one, also when other events
    reach the view while the handler is suspended. *)
Theorem update_targets_edited_record :
  forall (s : State) (env : nat -> Reply),
    (forall a req,
        In req (requests env (handle a s)) -> method req = PUT ->
        a = UpdateUser /\
        exists x, editingId s = Some x /\
                  url req = API_URL ++ number_to_string x ++ "/") /\
    (forall x parsed,
        editingId s = Some x -> x <> 0 -> env 0%nat = Response true parsed ->
        let s' := final env (handle UpdateUser s) in
        isEditing s' = false /\ editingId s' = None /\
        newUser s' = mkUser 0 "" "" /\
        requests env (handle UpdateUser s) =
          [mkRequest PUT (API_URL ++ number_to_string x ++ "/")
             [("Content-Type", "application/json")]
             (Some (JObj [("name", JStr (name (newUser s)));
                          ("email", JStr (email (newUser s)))]));
           mkRequest GET API_URL [] None] /\
        message s' = "✅ User updated successfully!" /\
        messageType s' = Success /\ showMessage s' = true) /\
    (forall parsed s0,
        finishes
          (fun s' => isEditing s' = false /\ editingId s' = None /\
                     newUser s' = mkUser 0 "" "" /\
                     message s' = "✅ User updated successfully!" /\
                     messageType s' = Success /\ showMessage s' = true)
          (updateUser_resume (Response true parsed) s0)).
Proof.
  intros s env. split; [| split].
  - intros a req Hin Hm. rewrite requests_handle in Hin.
    destruct a; simpl in Hin; try contradiction.
    + destruct Hin as [<- | []]. discriminate.
    + destruct ((name (newUser s) =? "")%string || (email (newUser s) =? "")%string);
        [contradiction |].
      destruct Hin as [<- | Hin]; [discriminate |].
      apply in_refetch in Hin. subst req. discriminate.
    + split; [reflexivity |].
      destruct (editingId s) as [x |]; [| contradiction].
      exists x. split; [reflexivity |].
      destruct (x =? 0); [contradiction |].
      destruct Hin as [<- | Hin]; [reflexivity |].
      apply in_refetch in Hin. subst req. discriminate.
    + destruct (confirmUserId s) as [j |]; [| contradiction].
      destruct Hin as [<- | Hin]; [discriminate |].
      apply in_refetch in Hin. subst req. discriminate.
  - intros x parsed H Hx Henv s'. subst s'.
    rewrite (updateUser_final env s x H Hx), (updateUser_requests env s x H Hx).
    rewrite Henv, updateUser_try_ok. simpl. repeat split; reflexivity.
  - intros parsed s0. unfold updateUser_resume. rewrite updateUser_try_ok.
    apply finishes_fetchUsers. intros s'. constructor. simpl.
    repeat split; reflexivity.
Qed.

Lemma update_targets_edited_record_witness :
  let s := inputName "Anna" (editUser (mkUser 3 "Ann" "ann@example.com") initial) in
  let env := fun _ : nat => Response true (Ok (JArr [])) in
  requests env (handle UpdateUser s) =
    [mkRequest PUT "http://127.0.0.1:8000/api/users/3/"
       [("Content-Type", "application/json")]
       (Some (JObj [("name", JStr "Anna"); ("email", JStr "ann@example.com")]));
     mkRequest GET "http://127.0.0.1:8000/api/users/" [] None] /\
  isEditing (final env (handle UpdateUser s)) = false /\
  editingId (final env (handle UpdateUser s)) = None.
Proof.
  destruct (update_targets_edited_record
              (inputName "Anna" (editUser (mkUser 3 "Ann" "ann@example.com") initial))
              (fun _ => Response true (Ok (JArr [])))) as [_ [H _]].
  destruct (H 3 (Ok (JArr [])) eq_refl ltac:(discriminate) eq_refl)
    as [H1 [H2 [_ [H4 _]]]].
  split; [exact H4 |]. split; [exact H1 | exact H2].
Defined.

(** C6. A failed operation leaves the data of the view alone.  When the
    reply to the POST of [addUser] or to the PUT of [updateUser] reports a
    failure, the rest of the handler, in whatever state it is resumed, keeps
    the draft (and the list); so does [addUser] when it stops at its guard.
    When the reply to the GET of [fetchUsers] reports a failure or carries
    no readable body, the list is kept.  The same holds of the handlers run
    from start to end, and of a deletion the server refuses. *)
Theorem failure_leaves_data_unchanged :
  forall (s : State) (env : nat -> Reply),
    (forall r s0, failed r = true ->
        exists s1, addUser_resume r s0 = Done s1 /\
                   newUser s1 = newUser s0 /\ users s1 = users s0) /\
    (forall r s0, failed r = true ->
        exists s1, updateUser_resume r s0 = Done s1 /\
                   newUser s1 = newUser s0 /\ users s1 = users s0) /\
    (forall r s0, failed r = true \/ unreadable r = true ->
        users (fetchUsers_resume r s0) = users s0) /\
    (failed (env 0%nat) = true \/
     name (newUser s) = "" \/ email (newUser s) = "" ->
     newUser (final env (handle AddUser s)) = newUser s) /\
    (failed (env 0%nat) = true ->
     newUser (final env (handle UpdateUser s)) = newUser s) /\
    (failed (env 0%nat) = true \/ unreadable (env 0%nat) = true ->
     users (final env (handle Mounted s)) = users s) /\
    (failed (env 0%nat) = true ->
     users (final env (handle ConfirmDelete s)) = users s /\
     newUser (final env (handle ConfirmDelete s)) = newUser s).
Proof.
  intros s env.
  split; [| split; [| split; [| split; [| split; [| split]]]]].
  - intros r s0 H. destruct (addUser_try_failed r H) as [msg E].
    unfold addUser_resume. rewrite E. eexists. split; [reflexivity |].
    split; reflexivity.
  - intros r s0 H. destruct (updateUser_try_failed r H) as [msg E].
    unfold updateUser_resume. rewrite E. eexists. split; [reflexivity |].
    split; reflexivity.
  - intros r s0 H. apply fetchUsers_resume_failed. assumption.
  - intros H.
    destruct (String.eqb_spec (name (newUser s)) "") as [En | En].
    { unfold final. simpl handle. unfold addUser.
      rewrite En. reflexivity. }
    destruct (String.eqb_spec (email (newUser s)) "") as [Ee | Ee].
    { unfold final. simpl handle. unfold addUser.
      rewrite Ee. rewrite orb_true_r. reflexivity. }
    destruct H as [H | [H | H]]; [| contradiction | contradiction].
    rewrite (addUser_final env s En Ee).
    destruct (addUser_try_failed _ H) as [msg E]. rewrite E. reflexivity.
  - intros H.
    destruct (editingId s) as [i |] eqn:Ei.
    + destruct (Z.eq_dec i 0) as [-> | Hi].
      * unfold final. simpl handle. unfold updateUser. rewrite Ei. reflexivity.
      * rewrite (updateUser_final env s i Ei Hi).
        destruct (updateUser_try_failed _ H) as [msg E]. rewrite E. reflexivity.
    + unfold final. simpl handle. unfold updateUser. rewrite Ei. reflexivity.
  - intros H. unfold final. simpl handle. rewrite run_fetchUsers. cbn [fst run].
    apply fetchUsers_resume_failed. assumption.
  - intros H. unfold final. simpl handle. unfold confirmDelete.
    destruct (confirmUserId s) as [j |]; [| split; reflexivity].
    unfold deleteUser. rewrite run_Await. cbn [fst].
    destruct (deleteUser_try_failed _ H) as [msg E]. rewrite E.
    split; reflexivity.
Qed.

Lemma failure_leaves_data_unchanged_witness :
  let s := inputEmail "ann@example.com" (inputName "Ann" initial) in
  let env := fun _ : nat => Response false (Ok (JObj [("email", JArr [JStr "taken"])])) in
  newUser (final env (handle AddUser s)) = mkUser 0 "Ann" "ann@example.com" /\
  users (final env (handle Mounted s)) = JArr [].
Proof.
  destruct (failure_leaves_data_unchanged
              (inputEmail "ann@example.com" (inputName "Ann" initial))
              (fun _ => Response false (Ok (JObj [("email", JArr [JStr "taken"])]))))
    as [_ [_ [_ [H1 [_ [H2 _]]]]]].
  split; [apply (H1 (or_introl eq_refl)) | apply (H2 (or_introl eq_refl))].
Defined.

(** C4 as stated fails: [showPopup] never cancels a pending callback.  A
    second notification shown 1000 ms after a first one finds the hide of the
    first still queued, gets a hide of its own queued behind it, and is
    hidden when the first deadline is reached, 1000 ms after it was shown. *)
Lemma popup_timer_counterexample :
  let first := showPopup "first" Success initial in
  let second := showPopup "second" Error (advance 1000 first) in
  now second = 1000 /\ timers second = [2000; 3000] /\
  showMessage second = true /\
  showMessage (advance 999 second) = true /\
  showMessage (advance 1000 second) = false /\
  message (advance 1000 second) = "second".
Proof. vm_compute. repeat split; reflexivity. Qed.

(** C4, amended. [showPopup] raises the visibility flag at once, whatever
    the kind, and queues one hide 2000 ms ahead behind the hides already
    pending, none of which is cancelled.  Once 2000 ms have passed with no
    other event the flag is down.  Before that the flag is up exactly when
    no hide queued by an earlier notification has come due; so a
    notification shown while no hide is pending stays visible for the whole
    2000 ms and is hidden at 2000 ms. *)
Theorem popup_hides_after_delay :
  forall (msg : string) (kind : MessageKind) (s : State) (dt : Z),
    0 <= dt ->
    let shown := showPopup msg kind s in
    (showMessage shown = true /\ message shown = msg /\
     messageType shown = kind /\
     timers shown = (timers s ++ [now s + 2000])%list) /\
    (2000 <= dt -> showMessage (advance dt shown) = false) /\
    (dt < 2000 ->
     showMessage (advance dt shown) =
       negb (existsb (due (now s + dt)) (timers s))) /\
    (timers s = [] ->
     showMessage (advance dt shown) = (dt <? 2000) /\
     timers (advance 2000 shown) = []).
Proof.
  intros msg kind s dt Hdt shown. subst shown.
  split; [repeat split; reflexivity |].
  unfold advance, showPopup, setTimeout. simpl.
  split; [| split].
  - intros H. rewrite existsb_due_app.
    replace (due (now s + dt) (now s + 2000)) with true
      by (symmetry; apply Z.leb_le; lia).
    rewrite orb_true_r. reflexivity.
  - intros H. rewrite existsb_due_app.
    replace (due (now s + dt) (now s + 2000)) with false
      by (symmetry; apply Z.leb_gt; lia).
    rewrite orb_false_r.
    destruct (existsb (due (now s + dt)) (timers s)); reflexivity.
  - intros E. rewrite E. simpl. unfold due.
    rewrite Z.leb_refl. simpl. split; [| reflexivity].
    destruct (Z.ltb_spec dt 2000) as [L | L].
    + replace (now s + 2000 <=? now s + dt) with false
        by (symmetry; apply Z.leb_gt; lia).
      reflexivity.
    + replace (now s + 2000 <=? now s + dt) with true
        by (symmetry; apply Z.leb_le; lia).
      reflexivity.
Qed.

Lemma popup_hides_after_delay_witness :
  showMessage (advance 1999 (showPopup "saved" Success initial)) = true /\
  showMessage (advance 2000 (showPopup "saved" Success initial)) = false.
Proof.
  split.
  - destruct (popup_hides_after_delay "saved" Success initial 1999
                ltac:(lia)) as [_ [_ [_ H]]].
    destruct (H eq_refl) as [H1 _]. exact H1.
  - destruct (popup_hides_after_delay "saved" Success initial 2000
                ltac:(lia)) as [_ [H _]].
    apply H. lia.
Defined.

(** C8. The edit flag is up exactly when the identifier being edited is not
    [null], and the dialog flag is up exactly when the identifier pending
    deletion is not [null].  This holds at the start, every handler run from
    start to end keeps it, and it holds in every configuration the event loop
    can reach, with handlers suspended on their requests, replies arriving
    in any order and time passing. *)
Theorem flags_agree_with_identifiers :
  ((isEditing initial = true <-> editingId initial <> None) /\
   (confirmVisible initial = true <-> confirmUserId initial <> None)) /\
  (forall (a : Action) (s : State) (env : nat -> Reply),
      (isEditing s = true <-> editingId s <> None) /\
      (confirmVisible s = true <-> confirmUserId s <> None) ->
      let s' := final env (handle a s) in
      (isEditing s' = true <-> editingId s' <> None) /\
      (confirmVisible s' = true <-> confirmUserId s' <> None)) /\
  (forall c : Config,
      reachable c ->
      (isEditing (view c) = true <-> editingId (view c) <> None) /\
      (confirmVisible (view c) = true <-> confirmUserId (view c) <> None)).
Proof.
  split; [exact consistent_initial |]. split.
  - intros a s env Hs s'. subst s'. unfold final.
    apply (preserves_run consistent env (handle a s)).
    apply handle_preserves. exact Hs.
  - intros c Hc. apply (sound_reachable c Hc).
Qed.

(** A run of the event loop: a record is put in edit mode, the deletion of
    another one is asked for and confirmed, and the server refuses it. *)
Lemma flags_agree_with_identifiers_witness :
  let c := settle
             (Done (set_confirmUserId None (set_confirmVisible false
                (showPopup (warning "Failed to delete user") Error
                   (openConfirm 7 (editUser (mkUser 3 "Ann" "ann@example.com") initial))))))
             [] in
  reachable c /\
  isEditing (view c) = true /\ editingId (view c) = Some 3 /\
  confirmVisible (view c) = false /\
  ((isEditing (view c) = true <-> editingId (view c) <> None) /\
   (confirmVisible (view c) = true <-> confirmUserId (view c) <> None)).
Proof.
  assert (R : reachable
    (settle
       (Done (set_confirmUserId None (set_confirmVisible false
          (showPopup (warning "Failed to delete user") Error
             (openConfirm 7 (editUser (mkUser 3 "Ann" "ann@example.com") initial))))))
       [])).
  { pose proof (reach_step _ _ reach_initial
                  (step_action (EditUser (mkUser 3 "Ann" "ann@example.com")) _))
      as R1.
    pose proof (reach_step _ _ R1 (step_action (OpenConfirm 7) _)) as R2.
    pose proof (reach_step _ _ R2 (step_action ConfirmDelete _)) as R3.
    simpl in R3.
    lazymatch type of R3 with
    | reachable (mkConfig ?s3 [(?req, ?k)]) =>
        exact (reach_step _ _ R3
                 (step_reply (mkConfig s3 [(req, k)]) [] req k []
                    (Response false (Ok (JObj []))) eq_refl))
    end. }
  split; [exact R |].
  split; [reflexivity |]. split; [reflexivity |]. split; [reflexivity |].
  destruct flags_agree_with_identifiers as [_ [_ H]].
  apply (H _ R).
Defined.

(** * Further properties of the script *)

(** ** Helper lemmas *)

Lemma fetchUsers_resume_users r s :
  users (fetchUsers_resume r s) =
  match r with
  | Response true (Ok v) => v
  | _ => users s
  end.
Proof.
  unfold fetchUsers_resume.
  destruct r as [msg | [|] [v | msg]]; simpl; try reflexivity.
  destruct (get_detail v); reflexivity.
Qed.

Lemma fetchUsers_resume_ok v s :
  fetchUsers_resume (Response true (Ok v)) s = set_users v s.
Proof. reflexivity. Qed.

Lemma addUser_refetch r :
  refetch (addUser_try r) = if failed r then [] else [fetchUsers_request].
Proof.
  destruct r as [msg | [|] parsed]; [reflexivity | reflexivity |].
  destruct (addUser_try_failed (Response false parsed) eq_refl) as [m E].
  rewrite E. reflexivity.
Qed.

Lemma updateUser_refetch r :
  refetch (updateUser_try r) = if failed r then [] else [fetchUsers_request].
Proof.
  destruct r as [msg | [|] parsed]; [reflexivity | reflexivity |].
  destruct (updateUser_try_failed (Response false parsed) eq_refl) as [m E].
  rewrite E. reflexivity.
Qed.

Lemma deleteUser_refetch r :
  refetch (deleteUser_try r) = if failed r then [] else [fetchUsers_request].
Proof.
  destruct r as [msg | [|] parsed]; [reflexivity | reflexivity |].
  destruct (deleteUser_try_failed (Response false parsed) eq_refl) as [m E].
  rewrite E. reflexivity.
Qed.

Lemma deleteUser_try_ok parsed : deleteUser_try (Response true parsed) = Ok tt.
Proof. reflexivity. Qed.

(** The state [confirmDelete] leaves, by the outcome of the [try] block of
    [deleteUser]. *)
Lemma confirmDelete_final_state env s i :
  confirmUserId s = Some i ->
  final env (handle ConfirmDelete s) =
  cancelDelete
    match deleteUser_try (env 0%nat) with
    | Ok _ =>
        showPopup "🗑️ User deleted successfully!" Success
          (fetchUsers_resume (env 1%nat) s)
    | Throw msg => showPopup (warning msg) Error s
    end.
Proof.
  intros H. unfold final. simpl handle. unfold confirmDelete. rewrite H.
  unfold deleteUser. rewrite run_Await. cbn [fst].
  destruct (deleteUser_try (env 0%nat)); [rewrite run_fetchUsers |]; reflexivity.
Qed.

Lemma mounted_final env s :
  final env (handle Mounted s) = fetchUsers_resume (env 0%nat) s.
Proof. unfold final. simpl handle. rewrite run_fetchUsers. reflexivity. Qed.

(** ** Requests *)

(** X1. Every handler issues no request at all, or (on mount) the one list
    request, or one changing request followed by the list request exactly
    when the reply to the changing request is a success.  The changing
    request is the POST of [addUser] to the collection, the PUT of
    [updateUser] to the item being edited or the DELETE of [confirmDelete]
    to the pending item; POST and PUT carry the name and email of the draft
    as JSON, DELETE carries nothing. *)
Theorem one_change_then_refetch :
  forall (a : Action) (s : State) (env : nat -> Reply),
    requests env (handle a s) = [] \/
    (a = Mounted /\
     requests env (handle a s) = [mkRequest GET API_URL [] None]) \/
    (exists m,
        requests env (handle a s) =
          m :: (if failed (env 0%nat) then [] else [mkRequest GET API_URL [] None]) /\
        ((a = AddUser /\
          m = mkRequest POST API_URL [("Content-Type", "application/json")]
                (Some (JObj [("name", JStr (name (newUser s)));
                             ("email", JStr (email (newUser s)))]))) \/
         (a = UpdateUser /\
          exists i, editingId s = Some i /\ i <> 0 /\
            m = mkRequest PUT (API_URL ++ number_to_string i ++ "/")
                  [("Content-Type", "application/json")]
                  (Some (JObj [("name", JStr (name (newUser s)));
                               ("email", JStr (email (newUser s)))]))) \/
         (a = ConfirmDelete /\
          exists j, confirmUserId s = Some j /\
            m = mkRequest DELETE (API_URL ++ number_to_string j ++ "/") [] None))).
Proof.
  intros a s env. rewrite requests_handle.
  destruct a; try (left; reflexivity).
  - right; left. split; reflexivity.
  - destruct ((name (newUser s) =? "")%string || (email (newUser s) =? "")%string);
      [left; reflexivity |].
    right; right. eexists. rewrite addUser_refetch.
    split; [reflexivity |]. left. split; reflexivity.
  - destruct (editingId s) as [i |]; [| left; reflexivity].
    destruct (Z.eqb_spec i 0) as [E | E]; [left; reflexivity |].
    right; right. eexists. rewrite updateUser_refetch.
    split; [reflexivity |]. right; left. split; [reflexivity |].
    exists i. repeat split; auto.
  - destruct (confirmUserId s) as [j |]; [| left; reflexivity].
    right; right. eexists. rewrite deleteUser_refetch.
    split; [reflexivity |]. right; right. split; [reflexivity |].
    exists j. repeat split; auto.
Qed.

(** X2. The list on display only ever changes to what the server sent: after
    any handler [users] is what it was, or it is the body of a successful,
    readable reply to the list request that handler issued. *)
Theorem users_only_from_server :
  forall (a : Action) (s : State) (env : nat -> Reply),
    users (final env (handle a s)) = users s \/
    (exists n v,
        nth_error (requests env (handle a s)) n = Some (mkRequest GET API_URL [] None) /\
        env n = Response true (Ok v) /\
        users (final env (handle a s)) = v).
Proof.
  intros a s env.
  assert (F : forall n s0,
             users (fetchUsers_resume (env n) s0) = users s0 \/
             exists v, env n = Response true (Ok v) /\
                       users (fetchUsers_resume (env n) s0) = v).
  { intros n s0. rewrite fetchUsers_resume_users.
    destruct (env n) as [msg | [|] [v | msg]]; eauto. }
  destruct a; try (left; reflexivity).
  - rewrite mounted_final, requests_handle.
    destruct (F 0%nat s) as [E | [v [E1 E2]]]; [left; exact E |].
    right. exists 0%nat, v. repeat split; assumption.
  - destruct (String.eqb_spec (name (newUser s)) "") as [En | En].
    { left. unfold final. simpl handle. unfold addUser. rewrite En. reflexivity. }
    destruct (String.eqb_spec (email (newUser s)) "") as [Ee | Ee].
    { left. unfold final. simpl handle. unfold addUser. rewrite Ee.
      rewrite orb_true_r. reflexivity. }
    rewrite (addUser_final env s En Ee), requests_handle.
    apply String.eqb_neq in En, Ee. rewrite En, Ee. cbn [orb].
    destruct (addUser_try (env 0%nat)); [| left; reflexivity].
    destruct (F 1%nat s) as [E | [v [E1 E2]]]; [left; exact E |].
    right. exists 1%nat, v. repeat split; assumption.
  - destruct (editingId s) as [i |] eqn:Ei.
    + destruct (Z.eq_dec i 0) as [-> | Hi].
      * left. unfold final. simpl handle. unfold updateUser. rewrite Ei. reflexivity.
      * rewrite (updateUser_final env s i Ei Hi), (updateUser_requests env s i Ei Hi).
        destruct (updateUser_try (env 0%nat)); [| left; reflexivity].
        destruct (F 1%nat s) as [E | [v [E1 E2]]]; [left; exact E |].
        right. exists 1%nat, v. repeat split; assumption.
    + left. unfold final. simpl handle. unfold updateUser. rewrite Ei. reflexivity.
  - destruct (confirmUserId s) as [j |] eqn:Ej.
    + rewrite (confirmDelete_final_state env s j Ej), requests_handle, Ej.
      destruct (deleteUser_try (env 0%nat)); [| left; reflexivity].
      destruct (F 1%nat s) as [E | [v [E1 E2]]]; [left; exact E |].
      right. exists 1%nat, v. repeat split; assumption.
    + left. unfold final. simpl handle. unfold confirmDelete. rewrite Ej. reflexivity.
Qed.

(** ** Successful operations *)

(** X3. When both fields are filled in and the POST succeeds, [addUser]
    fetches the list once, resets the draft to the empty record and ends on
    the success notification, also when the list request that follows
    fails: the error popup of [fetchUsers] is then overwritten at once.
    The list becomes the body of a successful readable list reply and is
    kept otherwise; edit mode and the dialog are not touched. *)
Theorem create_success :
  forall (s : State) (env : nat -> Reply) (parsed : result json),
    name (newUser s) <> "" -> email (newUser s) <> "" ->
    env 0%nat = Response true parsed ->
    let s' := final env (handle AddUser s) in
    requests env (handle AddUser s) =
      [addUser_request s; mkRequest GET API_URL [] None] /\
    newUser s' = mkUser 0 "" "" /\
    message s' = "✅ User added successfully!" /\
    messageType s' = Success /\ showMessage s' = true /\
    users s' = match env 1%nat with
               | Response true (Ok v) => v
               | _ => users s
               end /\
    isEditing s' = isEditing s /\ editingId s' = editingId s /\
    confirmVisible s' = confirmVisible s /\ confirmUserId s' = confirmUserId s.
Proof.
  intros s env parsed Hn He Henv s'. subst s'.
  rewrite (addUser_final env s Hn He), requests_handle.
  apply String.eqb_neq in Hn, He. rewrite Hn, He. cbn [orb].
  rewrite Henv, addUser_try_ok. simpl.
  rewrite fetchUsers_resume_users.
  destruct (fetchUsers_resume_frame (env 1%nat) s) as [_ [H1 [H2 [H3 [H4 _]]]]].
  repeat split; assumption || reflexivity.
Qed.

Lemma create_success_witness :
  let s := inputEmail "ann@example.com" (inputName "Ann" initial) in
  let env := fun n : nat =>
    match n with
    | O => Response true (Ok JNull)
    | _ => Response true (Ok (JArr [JObj [("id", JNum 1); ("name", JStr "Ann");
                                          ("email", JStr "ann@example.com")]]))
    end in
  newUser (final env (handle AddUser s)) = mkUser 0 "" "" /\
  users (final env (handle AddUser s)) =
    JArr [JObj [("id", JNum 1); ("name", JStr "Ann");
                ("email", JStr "ann@example.com")]].
Proof.
  destruct (create_success
              (inputEmail "ann@example.com" (inputName "Ann" initial))
              (fun n : nat =>
                 match n with
                 | O => Response true (Ok JNull)
                 | _ => Response true
                          (Ok (JArr [JObj [("id", JNum 1); ("name", JStr "Ann");
                                           ("email", JStr "ann@example.com")]]))
                 end)
              (Ok JNull) ltac:(discriminate) ltac:(discriminate) eq_refl)
    as [_ [H1 [_ [_ [_ [H2 _]]]]]].
  split; [exact H1 | exact H2].
Defined.

(** X4. When an identifier is pending and the DELETE succeeds,
    [confirmDelete] fetches the list once, ends on the success notification
    and closes the dialog.  It never touches the draft nor edit mode: when
    the record deleted is the one being edited, the view stays in edit mode
    on it. *)
Theorem delete_success :
  forall (s : State) (env : nat -> Reply) (j : Z) (parsed : result json),
    confirmUserId s = Some j ->
    env 0%nat = Response true parsed ->
    let s' := final env (handle ConfirmDelete s) in
    requests env (handle ConfirmDelete s) =
      [mkRequest DELETE (API_URL ++ number_to_string j ++ "/") [] None;
       mkRequest GET API_URL [] None] /\
    message s' = "🗑️ User deleted successfully!" /\
    messageType s' = Success /\ showMessage s' = true /\
    confirmVisible s' = false /\ confirmUserId s' = None /\
    users s' = match env 1%nat with
               | Response true (Ok v) => v
               | _ => users s
               end /\
    newUser s' = newUser s /\ isEditing s' = isEditing s /\
    editingId s' = editingId s.
Proof.
  intros s env j parsed H Henv s'. subst s'.
  rewrite (confirmDelete_final_state env s j H), requests_handle, H.
  rewrite Henv, deleteUser_try_ok. simpl.
  rewrite fetchUsers_resume_users.
  destruct (fetchUsers_resume_frame (env 1%nat) s) as [H1 [H2 [H3 _]]].
  repeat split; assumption || reflexivity.
Qed.

Lemma delete_success_witness :
  let s := openConfirm 3 (editUser (mkUser 3 "Ann" "ann@example.com") initial) in
  let env := fun _ : nat => Response true (Ok (JArr [])) in
  confirmVisible (final env (handle ConfirmDelete s)) = false /\
  isEditing (final env (handle ConfirmDelete s)) = true /\
  editingId (final env (handle ConfirmDelete s)) = Some 3.
Proof.
  destruct (delete_success
              (openConfirm 3 (editUser (mkUser 3 "Ann" "ann@example.com") initial))
              (fun _ => Response true (Ok (JArr []))) 3 (Ok (JArr []))
              eq_refl eq_refl)
    as [_ [_ [_ [_ [H1 [_ [_ [_ [H2 H3]]]]]]]]].
  split; [exact H1 |]. split; [exact H2 | exact H3].
Defined.

(** ** Failed operations *)

(** X5. A failure only shows: when the reply to the request of a handler
    reports a failure (for the list request also when its body is not
    readable), the state the handler leaves is the state it started in with
    one error popup on top, whose text starts with the warning sign; after
    [confirmDelete] the dialog is closed as well.  No list request
    follows. *)
Theorem failure_only_shows_a_popup :
  forall (s : State) (env : nat -> Reply),
    (failed (env 0%nat) = true \/ unreadable (env 0%nat) = true ->
     exists msg, final env (handle Mounted s) = showPopup (warning msg) Error s) /\
    (failed (env 0%nat) = true ->
     name (newUser s) <> "" -> email (newUser s) <> "" ->
     exists msg,
       final env (handle AddUser s) = showPopup (warning msg) Error s /\
       requests env (handle AddUser s) = [addUser_request s]) /\
    (failed (env 0%nat) = true ->
     forall i, editingId s = Some i -> i <> 0 ->
     exists msg,
       final env (handle UpdateUser s) = showPopup (warning msg) Error s /\
       requests env (handle UpdateUser s) = [updateUser_request i s]) /\
    (failed (env 0%nat) = true ->
     forall j, confirmUserId s = Some j ->
     exists msg,
       final env (handle ConfirmDelete s) =
         cancelDelete (showPopup (warning msg) Error s) /\
       requests env (handle ConfirmDelete s) = [deleteUser_request j]).
Proof.
  intros s env. split; [| split; [| split]].
  - intros H. destruct (fetchUsers_try_failed _ H) as [msg E].
    exists msg. rewrite mounted_final. unfold fetchUsers_resume. rewrite E.
    reflexivity.
  - intros H Hn He. destruct (addUser_try_failed _ H) as [msg E].
    exists msg. rewrite (addUser_final env s Hn He), requests_handle.
    apply String.eqb_neq in Hn, He. rewrite Hn, He, E. split; reflexivity.
  - intros H i Ei Hi. destruct (updateUser_try_failed _ H) as [msg E].
    exists msg.
    rewrite (updateUser_final env s i Ei Hi), (updateUser_requests env s i Ei Hi).
    rewrite E. split; reflexivity.
  - intros H j Ej. destruct (deleteUser_try_failed _ H) as [msg E].
    exists msg. rewrite (confirmDelete_final_state env s j Ej), requests_handle.
    rewrite Ej, E. split; reflexivity.
Qed.

Lemma failure_only_shows_a_popup_witness :
  let s := inputEmail "ann@example.com" (inputName "Ann" initial) in
  let env := fun _ : nat => Rejected "Failed to fetch" in
  exists msg,
    final env (handle AddUser s) = showPopup (warning msg) Error s /\
    requests env (handle AddUser s) = [addUser_request s].
Proof.
  destruct (failure_only_shows_a_popup
              (inputEmail "ann@example.com" (inputName "Ann" initial))
              (fun _ => Rejected "Failed to fetch")) as [_ [H _]].
  apply (H eq_refl); discriminate.
Defined.

(** ** The text of an error popup *)

Lemma join_nonempty sep x xs :
  x <> "" -> join sep (x :: xs) <> "".
Proof.
  intros Hx. destruct xs as [| y ys]; simpl; [exact Hx |].
  destruct x; [contradiction | discriminate].
Qed.




(** X7. The error text of [fetchUsers] and [deleteUser] on a non-success
    response whose body is an object: the warning sign followed by the
    [detail] of the body when that is a non-empty string, and by the
    fallback of the handler when the body has no [detail] or a falsy one.
    When the body of a non-success response cannot be parsed, or the request
    itself fails, the popup shows the message of that error, not the
    fallback. *)
Theorem detail_text :
  forall (s : State) (env : nat -> Reply) (j : Z),
    confirmUserId s = Some j ->
    (forall fields d,
        env 0%nat = Response false (Ok (JObj fields)) ->
        lookup "detail" fields = Some (JStr d) -> d <> "" ->
        message (final env (handle Mounted s)) = warning d /\
        message (final env (handle ConfirmDelete s)) = warning d) /\
    (forall fields,
        env 0%nat = Response false (Ok (JObj fields)) ->
        (lookup "detail" fields = None \/
         exists v, lookup "detail" fields = Some v /\ truthy v = false) ->
        message (final env (handle Mounted s)) = warning "Failed to fetch users" /\
        message (final env (handle ConfirmDelete s)) = warning "Failed to delete user") /\
    (forall msg,
        env 0%nat = Response false (Throw msg) \/ env 0%nat = Rejected msg ->
        message (final env (handle Mounted s)) = warning msg /\
        message (final env (handle ConfirmDelete s)) = warning msg).
Proof.
  intros s env j Hj.
  rewrite mounted_final, (confirmDelete_final_state env s j Hj).
  unfold fetchUsers_resume.
  split; [| split].
  - intros fields d Henv Hd Hne. rewrite Henv. simpl. rewrite Hd. simpl.
    apply String.eqb_neq in Hne. rewrite Hne. split; reflexivity.
  - intros fields Henv [Hd | [v [Hd Hv]]]; rewrite Henv; simpl; rewrite Hd; simpl;
      rewrite ?Hv; split; reflexivity.
  - intros msg [Henv | Henv]; rewrite Henv; split; reflexivity.
Qed.

Lemma detail_text_witness :
  let s := openConfirm 7 initial in
  let env := fun _ : nat =>
    Response false (Ok (JObj [("detail", JStr "Not found.")])) in
  message (final env (handle ConfirmDelete s)) = warning "Not found.".
Proof.
  destruct (detail_text (openConfirm 7 initial)
              (fun _ => Response false (Ok (JObj [("detail", JStr "Not found.")])))
              7 eq_refl) as [H _].
  destruct (H [("detail", JStr "Not found.")] "Not found." eq_refl eq_refl
              ltac:(discriminate)) as [_ H2].
  exact H2.
Defined.

(** ** Item paths *)

Lemma to_int_not_nil z :
  Z.to_int z <> Decimal.Pos Decimal.Nil /\ Z.to_int z <> Decimal.Neg Decimal.Nil.
Proof.
  split; intros H; pose proof (DecimalZ.of_to z) as E; rewrite H in E;
    simpl in E; subst z; discriminate.
Qed.

Lemma number_to_string_inj a b :
  number_to_string a = number_to_string b -> a = b.
Proof.
  unfold number_to_string. intros H.
  apply DecimalZ.to_int_inj.
  destruct (to_int_not_nil a) as [A1 A2]. destruct (to_int_not_nil b) as [B1 B2].
  pose proof (NilZero.isi (Z.to_int a) A1 A2) as Ea.
  pose proof (NilZero.isi (Z.to_int b) B1 B2) as Eb.
  rewrite H in Ea. rewrite Ea in Eb. injection Eb as Eb. exact Eb.
Qed.

Lemma append_cancel_l (p x y : string) : p ++ x = p ++ y -> x = y.
Proof.
  induction p as [| c p IH]; simpl; intros H; [exact H |].
  injection H as H. apply IH. exact H.
Qed.

Lemma append_cancel_slash (x y : string) : x ++ "/" = y ++ "/" -> x = y.
Proof.
  revert y. induction x as [| c x IH]; intros [| d y] H; simpl in H.
  - reflexivity.
  - injection H as _ H. destruct y; discriminate.
  - injection H as _ H. destruct x; discriminate.
  - injection H as -> H. f_equal. apply IH. exact H.
Qed.

(** X8. Different records have different item paths: the PUT and DELETE
    requests for two identifiers go to the same URL only when the
    identifiers are equal, and never to the collection URL itself. *)
Theorem item_url_injective :
  forall i j : Z,
    (item_url i = item_url j -> i = j) /\
    (url (deleteUser_request i) = url (deleteUser_request j) -> i = j) /\
    (forall s s', url (updateUser_request i s) = url (updateUser_request j s') -> i = j) /\
    item_url i <> API_URL.
Proof.
  intros i j.
  assert (G : item_url i = item_url j -> i = j).
  { unfold item_url. intros H. apply append_cancel_l in H.
    apply append_cancel_slash in H. apply number_to_string_inj. exact H. }
  split; [exact G |]. split; [exact G |]. split; [intros s s'; exact G |].
  unfold item_url. intros H.
  assert (N : forall p x : string, p ++ x = p -> x = "").
  { induction p as [| c p IH]; simpl; intros x Hx; [exact Hx |].
    injection Hx as Hx. apply IH. exact Hx. }
  apply N in H. destruct (number_to_string i); discriminate.
Qed.

(** ** Editing, typing, updating *)

Lemma perform_inputs env keys :
  forallb is_input keys = true ->
  forall s,
    newUser (perform env keys s) =
      mkUser (id (newUser s)) (typed_name keys (name (newUser s)))
        (typed_email keys (email (newUser s))) /\
    editingId (perform env keys s) = editingId s /\
    isEditing (perform env keys s) = isEditing s /\
    users (perform env keys s) = users s.
Proof.
  induction keys as [| a keys IH]; intros H s.
  - simpl. destruct (newUser s). auto.
  - simpl in H. apply andb_true_iff in H. destruct H as [Ha H].
    change (perform env (a :: keys) s)
      with (perform env keys (final env (handle a s))).
    destruct (IH H (final env (handle a s))) as [E1 [E2 [E3 E4]]].
    rewrite E1, E2, E3, E4.
    destruct a; try discriminate; simpl; auto.
Qed.

(** X9. Whatever is typed into the two inputs after [editUser], the update
    goes to the record that was picked: after [editUser user], with the
    identifier of [user] not 0, and any run of input events, [updateUser]
    first issues a PUT to the item path of [user] whose body carries the
    last text typed into each input, or the field of [user] when nothing was
    typed into it.  Typing issues no request and does not touch the list. *)
Theorem typing_keeps_the_target :
  forall (env : nat -> Reply) (user : User) (keys : list Action) (s : State),
    id user <> 0 ->
    forallb is_input keys = true ->
    let s' := perform env (EditUser user :: keys) s in
    newUser s' =
      mkUser (id user) (typed_name keys (name user)) (typed_email keys (email user)) /\
    isEditing s' = true /\ editingId s' = Some (id user) /\
    users s' = users s /\
    (forall a s0, In a keys -> requests env (handle a s0) = []) /\
    exists rest,
      requests env (handle UpdateUser s') =
        mkRequest PUT (API_URL ++ number_to_string (id user) ++ "/")
          [("Content-Type", "application/json")]
          (Some (JObj [("name", JStr (typed_name keys (name user)));
                       ("email", JStr (typed_email keys (email user)))])) :: rest.
Proof.
  intros env user keys s Hid Hkeys s'.
  assert (E : s' = perform env keys (editUser user s)) by reflexivity.
  destruct (perform_inputs env keys Hkeys (editUser user s)) as [E1 [E2 [E3 E4]]].
  rewrite <- E in E1, E2, E3, E4. simpl in E1, E2, E3, E4.
  split; [exact E1 |]. split; [exact E3 |]. split; [exact E2 |].
  split; [exact E4 |]. split.
  - intros a s0 Ha. rewrite forallb_forall in Hkeys. specialize (Hkeys a Ha).
    destruct a; try discriminate; reflexivity.
  - rewrite (updateUser_requests env s' (id user) E2 Hid).
    unfold updateUser_request, payload, item_url, json_headers. rewrite E1. simpl.
    eexists. reflexivity.
Qed.

Lemma typing_keeps_the_target_witness :
  let env := fun _ : nat => Rejected "offline" in
  let s' := perform env
              [EditUser (mkUser 3 "Ann" "ann@example.com");
               InputName "An"; InputName "Anna"] initial in
  newUser s' = mkUser 3 "Anna" "ann@example.com" /\ editingId s' = Some 3.
Proof.
  destruct (typing_keeps_the_target (fun _ => Rejected "offline")
              (mkUser 3 "Ann" "ann@example.com")
              [InputName "An"; InputName "Anna"] initial
              ltac:(discriminate) eq_refl) as [H1 [_ [H2 _]]].
  split; [exact H1 | exact H2].
Defined.

(** ** Invariants of the popup in the event loop *)

Section PopupInvariant.

(** A property of the view that only depends on the clock, the pending
    hides and the visibility flag, and that [showPopup] and the passing of
    time keep. *)
Variable P : State -> Prop.
Hypothesis P_showPopup : forall msg kind s, P s -> P (showPopup msg kind s).
Hypothesis P_same :
  forall s s', now s' = now s -> timers s' = timers s ->
               showMessage s' = showMessage s -> P s -> P s'.
Hypothesis P_advance : forall dt s, 0 <= dt -> P s -> P (advance dt s).
Hypothesis P_initial : P initial.

Lemma P_fetchUsers_resume r s : P s -> P (fetchUsers_resume r s).
Proof.
  intros H. unfold fetchUsers_resume. destruct (fetchUsers_try r).
  - revert H. apply P_same; reflexivity.
  - apply P_showPopup. exact H.
Qed.

Lemma P_fetchUsers k s :
  P s -> (forall s', P s' -> preserves P (k s')) -> preserves P (fetchUsers k s).
Proof.
  intros Hs Hk. unfold fetchUsers. constructor; [exact Hs |].
  intros r s' Hs'. apply Hk. apply P_fetchUsers_resume. exact Hs'.
Qed.

Lemma handle_keeps a s : P s -> preserves P (handle a s).
Proof.
  intros Hs. destruct a; simpl.
  - apply P_fetchUsers; [exact Hs |]. intros; constructor; assumption.
  - constructor. revert Hs. apply P_same; reflexivity.
  - constructor. revert Hs. apply P_same; reflexivity.
  - unfold addUser.
    destruct ((name (newUser s) =? "")%string || (email (newUser s) =? "")%string).
    + constructor. apply P_showPopup. exact Hs.
    + constructor; [exact Hs |]. intros r s' Hs'. unfold addUser_resume.
      destruct (addUser_try r).
      * apply P_fetchUsers; [exact Hs' |]. intros s'' Hs''.
        constructor. apply P_showPopup.
        revert Hs''. apply P_same; reflexivity.
      * constructor. apply P_showPopup. exact Hs'.
  - constructor. revert Hs. apply P_same; reflexivity.
  - unfold updateUser. destruct (editingId s) as [i |].
    + destruct (i =? 0).
      * constructor; exact Hs.
      * constructor; [exact Hs |]. intros r s' Hs'. unfold updateUser_resume.
        destruct (updateUser_try r).
        -- apply P_fetchUsers; [exact Hs' |]. intros s'' Hs''.
           constructor. apply P_showPopup. unfold cancelEdit.
           apply P_showPopup. revert Hs''. apply P_same; reflexivity.
        -- constructor. apply P_showPopup. exact Hs'.
    + constructor; exact Hs.
  - constructor. unfold cancelEdit. apply P_showPopup.
    revert Hs. apply P_same; reflexivity.
  - constructor. revert Hs. apply P_same; reflexivity.
  - unfold confirmDelete. destruct (confirmUserId s) as [i |].
    + unfold deleteUser. constructor; [exact Hs |]. intros r s' Hs'.
      destruct (deleteUser_try r).
      * apply P_fetchUsers; [exact Hs' |]. intros s'' Hs''.
        constructor.
        match goal with
        | |- P (set_confirmUserId None (set_confirmVisible false ?x)) =>
            apply (P_same x); try reflexivity
        end.
        apply P_showPopup. exact Hs''.
      * constructor.
        match goal with
        | |- P (set_confirmUserId None (set_confirmVisible false ?x)) =>
            apply (P_same x); try reflexivity
        end.
        apply P_showPopup. exact Hs'.
    + constructor; exact Hs.
  - constructor. revert Hs. apply P_same; reflexivity.
Qed.

Lemma reachable_keeps c :
  reachable c ->
  P (view c) /\
  Forall (fun rk => forall r s, P s -> preserves P (snd rk r s)) (inflight c).
Proof.
  assert (S : forall p others,
             preserves P p ->
             Forall (fun rk => forall r s, P s -> preserves P (snd rk r s)) others ->
             P (view (settle p others)) /\
             Forall (fun rk => forall r s, P s -> preserves P (snd rk r s))
               (inflight (settle p others))).
  { intros p others Hp Ho. destruct Hp as [s Hs | s req k Hs Hk]; simpl.
    - split; assumption.
    - split; [exact Hs |]. apply Forall_app. split; [exact Ho |].
      constructor; [exact Hk | constructor]. }
  induction 1 as [| c c' Hc [Hv Hf] Hstep].
  - split; [exact P_initial | constructor].
  - destruct Hstep as [a c | c before req k after r E | c dt Hdt].
    + apply S; [apply handle_keeps; exact Hv | exact Hf].
    + rewrite E in Hf. apply Forall_app in Hf. destruct Hf as [Hb Ha].
      inversion Ha as [| x l Hk Hrest]; subst.
      apply S; [apply (Hk r (view c) Hv) |].
      apply Forall_app. split; assumption.
    + split; [apply P_advance; assumption | exact Hf].
Qed.

End PopupInvariant.

Lemma filter_none_due t l :
  existsb (due t) l = false -> filter (fun d => negb (due t d)) l = l.
Proof.
  induction l as [| d l IH]; [reflexivity |].
  simpl. intros H. apply orb_false_iff in H. destruct H as [Hd Hl].
  rewrite Hd. simpl. rewrite (IH Hl). reflexivity.
Qed.

Lemma hides_bounded_showPopup msg kind s :
  hides_bounded s -> hides_bounded (showPopup msg kind s).
Proof.
  intros [Hb _]. unfold hides_bounded. simpl. split.
  - apply Forall_app. split; [exact Hb |].
    constructor; [lia | constructor].
  - intros _ E. destruct (timers s); discriminate.
Qed.

Lemma hides_bounded_same s s' :
  now s' = now s -> timers s' = timers s -> showMessage s' = showMessage s ->
  hides_bounded s -> hides_bounded s'.
Proof. unfold hides_bounded. intros -> -> ->. auto. Qed.

Lemma hides_bounded_advance dt s :
  0 <= dt -> hides_bounded s -> hides_bounded (advance dt s).
Proof.
  intros Hdt [Hb Hv]. unfold hides_bounded, advance. simpl. split.
  - rewrite Forall_forall in *. intros d Hd.
    apply filter_In in Hd. destruct Hd as [Hin Hd].
    apply negb_true_iff in Hd. unfold due in Hd. apply Z.leb_gt in Hd.
    specialize (Hb d Hin). lia.
  - destruct (existsb (due (now s + dt)) (timers s)) eqn:E; [discriminate |].
    intros H. rewrite (filter_none_due _ _ E). apply Hv. exact H.
Qed.

Lemma hides_bounded_initial : hides_bounded initial.
Proof.
  unfold hides_bounded. simpl. split; [constructor | discriminate].
Qed.

(** X10. No popup outlives its two seconds.  In every configuration the
    event loop can reach, every pending hide is due later than now and at
    most 2000 ms from now, and a visible popup has a hide pending; so once
    2000 ms or more pass with no other event the popup is hidden and no hide
    is left pending. *)
Theorem popup_never_sticks :
  forall (c : Config) (dt : Z),
    reachable c -> 2000 <= dt ->
    Forall (fun d => now (view c) < d <= now (view c) + 2000) (timers (view c)) /\
    (showMessage (view c) = true -> timers (view c) <> []) /\
    showMessage (advance dt (view c)) = false /\
    timers (advance dt (view c)) = [].
Proof.
  intros c dt Hc Hdt.
  destruct (reachable_keeps hides_bounded hides_bounded_showPopup
              hides_bounded_same hides_bounded_advance hides_bounded_initial
              c Hc) as [[Hb Hv] _].
  split; [exact Hb |]. split; [exact Hv |].
  unfold advance. simpl.
  assert (A : forall d, In d (timers (view c)) -> due (now (view c) + dt) d = true).
  { intros d Hd. rewrite Forall_forall in Hb. specialize (Hb d Hd).
    unfold due. apply Z.leb_le. lia. }
  split.
  - destruct (timers (view c)) as [| d l] eqn:E.
    + simpl. destruct (showMessage (view c)); [| reflexivity].
      exfalso. apply Hv; reflexivity.
    + simpl. rewrite (A d (or_introl eq_refl)). reflexivity.
  - clear Hv Hb. induction (timers (view c)) as [| d l IH]; [reflexivity |].
    simpl. rewrite (A d (or_introl eq_refl)). simpl.
    apply IH. intros d' Hd'. apply A. right. exact Hd'.
Qed.

Lemma popup_never_sticks_witness :
  let c := settle (handle CancelEdit initial) [] in
  showMessage (view c) = true /\
  showMessage (advance 2000 (view c)) = false /\
  timers (advance 2000 (view c)) = [].
Proof.
  split; [reflexivity |].
  destruct (popup_never_sticks (settle (handle CancelEdit initial) []) 2000
              (reach_step _ _ reach_initial (step_action CancelEdit _))
              ltac:(lia)) as [_ [_ H]].
  exact H.
Defined.

(** ** While a request is in flight *)

(** X11. A handler that suspends on a request has changed nothing yet: no
    flag is raised and no button is taken away while the request is in
    flight.  So the same action dispatched again before the reply arrives
    suspends on the same request again, and the event loop then holds the
    request twice. *)
Theorem nothing_changes_before_the_reply :
  forall (a : Action) (s s' : State) (req : Request) (k : Reply -> State -> prog),
    handle a s = Await s' req k ->
    s' = s /\
    (forall others,
        let c1 := settle (handle a s) others in
        let c2 := settle (handle a (view c1)) (inflight c1) in
        view c1 = s /\ view c2 = s /\
        map fst (inflight c2) = (map fst others ++ [req; req])%list).
Proof.
  intros a s s' req k H.
  assert (E : s' = s).
  { destruct a; simpl in H; try discriminate.
    - unfold fetchUsers in H. injection H as H _ _. auto.
    - unfold addUser in H.
      destruct ((name (newUser s) =? "")%string || (email (newUser s) =? "")%string);
        [discriminate |].
      injection H as H _ _. auto.
    - unfold updateUser in H. destruct (editingId s) as [i |]; [| discriminate].
      destruct (i =? 0); [discriminate |]. injection H as H _ _. auto.
    - unfold confirmDelete in H. destruct (confirmUserId s) as [i |]; [| discriminate].
      unfold deleteUser in H. injection H as H _ _. auto. }
  subst s'. split; [reflexivity |].
  intros others c1 c2. subst c2 c1. rewrite H. simpl. rewrite H. simpl.
  split; [reflexivity |]. split; [reflexivity |].
  rewrite !map_app. simpl. rewrite <- app_assoc. reflexivity.
Qed.

Lemma nothing_changes_before_the_reply_witness :
  let s := openConfirm 7 initial in
  let c1 := settle (handle ConfirmDelete s) [] in
  let c2 := settle (handle ConfirmDelete (view c1)) (inflight c1) in
  confirmVisible (view c1) = true /\
  map fst (inflight c2) = [deleteUser_request 7; deleteUser_request 7].
Proof.
  destruct (nothing_changes_before_the_reply ConfirmDelete (openConfirm 7 initial)
              _ _ _ eq_refl) as [_ H].
  destruct (H []) as [H1 [_ H2]].
  split; [rewrite H1; reflexivity | exact H2].
Defined.

(** ** The buttons of the template *)

(** X12. In every configuration the event loop can reach, a button on
    display does what it says.  When the dialog is shown an identifier is
    pending, so [Yes, Delete] issues the DELETE for it; when the update and
    cancel buttons are shown an identifier is being edited, so [Update]
    issues the PUT for it unless that identifier is 0; and the add button is
    shown exactly when those two are not. *)
Theorem buttons_on_display_act :
  forall (c : Config) (env : nat -> Reply),
    reachable c ->
    (rendered (view c) ConfirmYes = true ->
     exists j rest,
       confirmUserId (view c) = Some j /\
       requests env (handle (click ConfirmYes) (view c)) =
         mkRequest DELETE (API_URL ++ number_to_string j ++ "/") [] None :: rest) /\
    (rendered (view c) UpdateButton = true ->
     exists i,
       editingId (view c) = Some i /\
       (i <> 0 ->
        exists rest,
          requests env (handle (click UpdateButton) (view c)) =
            updateUser_request i (view c) :: rest)) /\
    (rendered (view c) AddButton = true -> editingId (view c) = None) /\
    rendered (view c) AddButton = negb (rendered (view c) UpdateButton) /\
    rendered (view c) CancelButton = rendered (view c) UpdateButton /\
    rendered (view c) ConfirmNo = rendered (view c) ConfirmYes.
Proof.
  intros c env Hc.
  destruct (sound_reachable c Hc) as [[He Hd] _].
  split; [| split; [| split]].
  - cbn [rendered click]. intros H. apply Hd in H.
    destruct (confirmUserId (view c)) as [j |] eqn:Ej; [| contradiction].
    exists j. eexists. split; [reflexivity |].
    rewrite requests_handle, Ej. reflexivity.
  - cbn [rendered click]. intros H. apply He in H.
    destruct (editingId (view c)) as [i |] eqn:Ei; [| contradiction].
    exists i. split; [reflexivity |]. intros Hi.
    eexists. apply (updateUser_requests env (view c) i Ei Hi).
  - simpl. intros H. apply negb_true_iff in H.
    destruct (editingId (view c)) as [i |] eqn:Ei; [| reflexivity].
    assert (T : isEditing (view c) = true) by (apply He; discriminate).
    rewrite T in H. discriminate.
  - repeat split; reflexivity.
Qed.

Lemma buttons_on_display_act_witness :
  let c := settle (handle (OpenConfirm 7) initial) [] in
  rendered (view c) ConfirmYes = true /\
  exists j rest,
    confirmUserId (view c) = Some j /\
    requests (fun _ => Rejected "offline") (handle (click ConfirmYes) (view c)) =
      mkRequest DELETE (API_URL ++ number_to_string j ++ "/") [] None :: rest.
Proof.
  split; [reflexivity |].
  destruct (buttons_on_display_act (settle (handle (OpenConfirm 7) initial) [])
              (fun _ => Rejected "offline")
              (reach_step _ _ reach_initial (step_action (OpenConfirm 7) _)))
    as [H _].
  apply H. reflexivity.
Defined.

(** ** The background *)

Lemma rotate_mod i :
  0 <= i -> rotate i = (i + 1) mod 4.
Proof.
  intros H. unfold rotate. simpl.
  apply Z.rem_mod_nonneg; lia.
Qed.

Lemma iter_rotate n :
  Nat.iter n rotate 0 = Z.of_nat n mod 4.
Proof.
  induction n as [| n IH]; [reflexivity |].
  rewrite Nat.iter_succ, IH, rotate_mod by (apply Z.mod_pos_bound; lia).
  rewrite Nat2Z.inj_succ, <- Z.add_1_r.
  rewrite Zplus_mod_idemp_l. reflexivity.
Qed.

(** X13. The background index never leaves the array.  At any time [t]
    after mount the index is the number of full periods of 15000 ms modulo
    4, so it lies between 0 and 3, the style written for it names one of the
    four images (never [undefined]), and the background repeats every 60000
    ms. *)
Theorem background_index_in_bounds :
  forall t : Z,
    0 <= t ->
    index_at t = (t / 15000) mod 4 /\
    0 <= index_at t < Z.of_nat (List.length images) /\
    (exists path,
        In path images /\
        backgroundImage (index_at t) = "url(" ++ path ++ ")") /\
    index_at (t + 60000) = index_at t.
Proof.
  intros t Ht.
  assert (Q : 0 <= t / 15000) by (apply Z.div_pos; lia).
  assert (E : forall u, 0 <= u -> index_at u = (u / 15000) mod 4).
  { intros u Hu. unfold index_at. rewrite iter_rotate, Z2Nat.id; [reflexivity |].
    apply Z.div_pos; lia. }
  assert (B : 0 <= index_at t < 4).
  { rewrite (E t Ht). apply Z.mod_pos_bound. lia. }
  split; [apply E; exact Ht |]. split; [exact B |]. split.
  - assert (C : index_at t = 0 \/ index_at t = 1 \/ index_at t = 2 \/ index_at t = 3)
      by lia.
    destruct C as [C | [C | [C | C]]]; rewrite C; eexists;
      (split; [| reflexivity]); simpl; auto.
  - rewrite (E t Ht), (E (t + 60000)) by lia.
    replace (t + 60000) with (t + 4 * 15000) by lia.
    rewrite Z.div_add by lia.
    rewrite <- (Z.mul_1_l 4) at 1. rewrite Z.mod_add; lia.
Qed.

Lemma background_index_in_bounds_witness :
  index_at 50000 = 3 /\ backgroundImage (index_at 50000) = "url(/bg3.jpg)" /\
  index_at 60000 = 0.
Proof.
  destruct (background_index_in_bounds 50000 ltac:(lia)) as [H _].
  split; [rewrite H; reflexivity |].
  split; reflexivity.
Defined.

(** ** After the draft is reset *)

(** X14. Once the draft has been reset, [addUser] is held back by its guard.
    Right after a successful [addUser], after a successful [updateUser] and
    after [cancelEdit], another [addUser] issues no request and only shows
    the error popup that asks to fill the fields, until something is typed
    into both inputs. *)
Theorem add_after_reset_is_blocked :
  forall (s : State) (env env' : nat -> Reply) (parsed : result json),
    env 0%nat = Response true parsed ->
    let blocked := fun s0 : State =>
      requests env' (handle AddUser s0) = [] /\
      message (final env' (handle AddUser s0)) = "Please fill all fields" /\
      messageType (final env' (handle AddUser s0)) = Error in
    (name (newUser s) <> "" -> email (newUser s) <> "" ->
     blocked (final env (handle AddUser s))) /\
    (forall i, editingId s = Some i -> i <> 0 ->
     blocked (final env (handle UpdateUser s))) /\
    blocked (final env (handle CancelEdit s)).
Proof.
  intros s env env' parsed Henv blocked.
  assert (B : forall s0, newUser s0 = emptyUser -> blocked s0).
  { intros s0 E. unfold blocked. rewrite requests_handle.
    unfold final. simpl handle. unfold addUser. rewrite E. simpl.
    repeat split; reflexivity. }
  split; [| split].
  - intros Hn He. apply B. rewrite (addUser_final env s Hn He), Henv.
    reflexivity.
  - intros i Ei Hi. apply B. rewrite (updateUser_final env s i Ei Hi), Henv.
    reflexivity.
  - apply B. reflexivity.
Qed.

Lemma add_after_reset_is_blocked_witness :
  let s := inputEmail "ann@example.com" (inputName "Ann" initial) in
  let env := fun _ : nat => Response true (Ok (JArr [])) in
  requests env (handle AddUser s) =
    [addUser_request s; fetchUsers_request] /\
  requests env (handle AddUser (final env (handle AddUser s))) = [].
Proof.
  split; [reflexivity |].
  destruct (add_after_reset_is_blocked
              (inputEmail "ann@example.com" (inputName "Ann" initial))
              (fun _ => Response true (Ok (JArr [])))
              (fun _ => Response true (Ok (JArr [])))
              (Ok (JArr [])) eq_refl) as [H _].
  apply H; discriminate.
Defined.
